(** * Starlight protocol: Sentinel runtime and stealth driver.

    A shallow embedding of the parts of the Starlight sources that
    decide the settlement monitor (sentinels/pulse_sentinel.py), the
    PII guard (sentinels/pii_sentinel.py), the learned memory of the
    Janitor (sentinels/janitor.py), the persistent memory file of the
    Sentinel runtime (sdk/starlight_sdk.py) and the JSON-RPC loop of
    the stealth driver (src/stealth_driver.py).

    Conventions.
    - Python [str] values are Rocq strings (ASCII text).
    - Python floats (wall-clock seconds, windows, variances) are exact
      rationals [Q]; the claims below only compare them.
    - Python exceptions are values of [exc]; a computation that may
      raise returns [exc + A] (left = raised). *)

From Stdlib Require Import QArith Qround ZArith Lia Lqa.
From stdpp Require Import base gmap strings list.

Import ListNotations.
Open Scope string_scope.
#[local] Set Warnings "-register-all".

(* ------------------------------------------------------------------ *)
(** ** Python values, strings and exceptions *)

Module Py.

(** Python values as they travel through the stealth driver: JSON
    shaped data, plus [PObj] for a live object (a WebElement handed
    back by the browser) that [json.dumps] cannot encode. *)
Inductive pyval : Type :=
| PNone
| PBool (b : bool)
| PInt (z : Z)
| PStr (s : string)
| PList (xs : list pyval)
| PDict (kvs : list (string * pyval))
| PObj (repr : string).

(** Exception classes the driver code distinguishes with [isinstance].
    The four Selenium classes are subclasses of [WebDriverException]. *)
Inductive exc_class : Type :=
| NoSuchElementException
| StaleElementReferenceException
| TimeoutException
| ElementNotInteractableException
| OtherWebDriverException (name : string)   (* any other WebDriverException *)
| AttributeError
| TypeError
| ValueError
| OtherException (name : string).            (* not a WebDriverException *)

Record exc : Type := mkExc { exc_cls : exc_class; exc_str : string }.

Definition class_name (c : exc_class) : string :=
  match c with
  | NoSuchElementException => "NoSuchElementException"
  | StaleElementReferenceException => "StaleElementReferenceException"
  | TimeoutException => "TimeoutException"
  | ElementNotInteractableException => "ElementNotInteractableException"
  | OtherWebDriverException n => n
  | AttributeError => "AttributeError"
  | TypeError => "TypeError"
  | ValueError => "ValueError"
  | OtherException n => n
  end.

Definition is_webdriver_exc (c : exc_class) : bool :=
  match c with
  | NoSuchElementException | StaleElementReferenceException
  | TimeoutException | ElementNotInteractableException
  | OtherWebDriverException _ => true
  | _ => false
  end.

(** A Python [str] is held as the string of its code points, each
    below 256 (Latin-1). [str.lower] on such a string: A-Z and the
    Latin-1 capitals \xc0-\xde (except ×) move up by 32. *)
Definition lower_ascii (a : Ascii.ascii) : Ascii.ascii :=
  let n := Ascii.nat_of_ascii a in
  if ((65 <=? n)%nat && (n <=? 90)%nat) || ((192 <=? n)%nat && (n <=? 222)%nat && negb (n =? 215)%nat)
  then Ascii.ascii_of_nat (n + 32) else a.

Fixpoint lower (s : string) : string :=
  match s with
  | EmptyString => EmptyString
  | String a r => String (lower_ascii a) (lower r)
  end.

(** [str.upper] on the ASCII letters; other characters are kept. Python
    also upper-cases the Latin-1 small letters (to characters outside
    ASCII, except ß to "SS"); the code only compares the result with
    ASCII strings that contain no "SS", on which the two agree. *)
Definition upper_ascii (a : Ascii.ascii) : Ascii.ascii :=
  let n := Ascii.nat_of_ascii a in
  if (97 <=? n)%nat && (n <=? 122)%nat then Ascii.ascii_of_nat (n - 32) else a.

Fixpoint upper (s : string) : string :=
  match s with
  | EmptyString => EmptyString
  | String a r => String (upper_ascii a) (upper r)
  end.

Fixpoint is_prefix (p s : string) : bool :=
  match p, s with
  | EmptyString, _ => true
  | String a p', String b s' => Ascii.eqb a b && is_prefix p' s'
  | String _ _, EmptyString => false
  end.

(** Python's [p in s] for strings. *)
Fixpoint contains (s p : string) : bool :=
  is_prefix p s ||
  match s with
  | EmptyString => false
  | String _ s' => contains s' p
  end.

(** Python truthiness of a string, and of an optional value. *)
Definition str_truthy (s : string) : bool :=
  match s with EmptyString => false | _ => true end.

(** [str(n)] for an int: its decimal digits, with "-" when negative. *)
Definition digit_char (d : N) : Ascii.ascii := Ascii.ascii_of_N (48 + d).

Fixpoint digits_of_N (fuel : nat) (n : N) (acc : string) : string :=
  match fuel with
  | O => acc
  | S f =>
      let acc' := String (digit_char (N.modulo n 10)) acc in
      if N.eqb (N.div n 10) 0 then acc' else digits_of_N f (N.div n 10) acc'
  end.

Definition str_of_Z (z : Z) : string :=
  match z with
  | Z0 => "0"
  | Zpos p => digits_of_N (Pos.size_nat p) (Npos p) ""
  | Zneg p => "-" ++ digits_of_N (Pos.size_nat p) (Npos p) ""
  end.

(** [repr(s)] for a string: single quotes, or double quotes when [s]
    holds a single quote and no double quote; the backslash and the
    chosen quote are escaped, \t \n \r by name, and the other
    non-printable characters (\x00-\x1f, \x7f-\xa0, \xad) as \xhh. *)
Definition backslash : Ascii.ascii := Ascii.ascii_of_nat 92.
Definition dquote : Ascii.ascii := Ascii.ascii_of_nat 34.
Definition squote : Ascii.ascii := Ascii.ascii_of_nat 39.

Definition hex_char (d : nat) : Ascii.ascii :=
  if (d <? 10)%nat then Ascii.ascii_of_nat (48 + d) else Ascii.ascii_of_nat (87 + d).

Definition escape_char (q c : Ascii.ascii) : string :=
  let n := Ascii.nat_of_ascii c in
  if (n =? 92)%nat || Ascii.eqb c q then String backslash (String c EmptyString)
  else if (n =? 9)%nat then String backslash "t"
  else if (n =? 10)%nat then String backslash "n"
  else if (n =? 13)%nat then String backslash "r"
  else if (n <? 32)%nat || ((127 <=? n)%nat && (n <=? 160)%nat) || (n =? 173)%nat
  then String backslash (String (Ascii.ascii_of_nat 120) (String (hex_char (n / 16))
         (String (hex_char (n mod 16)) EmptyString)))
  else String c EmptyString.

Fixpoint has_char (c : Ascii.ascii) (s : string) : bool :=
  match s with
  | EmptyString => false
  | String a r => Ascii.eqb a c || has_char c r
  end.

Fixpoint escape (q : Ascii.ascii) (s : string) : string :=
  match s with
  | EmptyString => EmptyString
  | String c r => escape_char q c ++ escape q r
  end.

Definition repr_str (s : string) : string :=
  let q := if has_char squote s && negb (has_char dquote s) then dquote else squote in
  String q (escape q s ++ String q EmptyString).

(** [repr(v)] and [str(v)] (what an f-string inserts) of a value: they
    differ only on a string, which [str] leaves as it is. A live object
    is shown by its own text. *)
Fixpoint py_repr (v : pyval) : string :=
  match v with
  | PNone => "None"
  | PBool true => "True"
  | PBool false => "False"
  | PInt z => str_of_Z z
  | PStr s => repr_str s
  | PList xs =>
      "[" ++ (fix go (l : list pyval) : string :=
                match l with
                | [] => ""
                | x :: r => py_repr x ++ match r with [] => "" | _ => ", " ++ go r end
                end) xs ++ "]"
  | PDict kvs =>
      "{" ++ (fix go (l : list (string * pyval)) : string :=
                match l with
                | [] => ""
                | (k, x) :: r =>
                    repr_str k ++ ": " ++ py_repr x
                    ++ match r with [] => "" | _ => ", " ++ go r end
                end) kvs ++ "}"
  | PObj r => r
  end.

Definition py_str (v : pyval) : string :=
  match v with PStr s => s | _ => py_repr v end.

(** What a call does: it returns, raises, or never returns. *)
Inductive outcome (A : Type) : Type :=
| Ret (a : A)
| Exn (e : exc)
| Hang.
Arguments Ret {A} a.
Arguments Exn {A} e.
Arguments Hang {A}.

Definition truthy (v : pyval) : bool :=
  match v with
  | PNone => false
  | PBool b => b
  | PInt z => negb (Z.eqb z 0)
  | PStr s => str_truthy s
  | PList xs => negb (Nat.eqb (length xs) 0)
  | PDict kvs => negb (Nat.eqb (length kvs) 0)
  | PObj _ => true
  end.

(** [d.get(k, default)] on a dict given by its bindings (keys distinct). *)
Fixpoint assoc_get (kvs : list (string * pyval)) (k : string) (dflt : pyval)
  : pyval :=
  match kvs with
  | [] => dflt
  | (k', v) :: r => if String.eqb k k' then v else assoc_get r k dflt
  end.

(** [x.get(k, default)] on an arbitrary value: only a dict has [.get];
    anything else raises [AttributeError]. *)
Definition get (x : pyval) (k : string) (dflt : pyval) : exc + pyval :=
  match x with
  | PDict kvs => inr (assoc_get kvs k dflt)
  | _ => inl (mkExc AttributeError
                ("object has no attribute 'get'"))
  end.

(** Whether [json.dumps] succeeds: it raises [TypeError] on a live object. *)
Fixpoint json_serializable (v : pyval) : bool :=
  match v with
  | PObj _ => false
  | PList xs => forallb json_serializable xs
  | PDict kvs =>
      (fix go (l : list (string * pyval)) : bool :=
         match l with
         | [] => true
         | (_, w) :: r => json_serializable w && go r
         end) kvs
  | _ => true
  end.

End Py.

Import Py.

(* ------------------------------------------------------------------ *)
(** ** Stealth driver (src/stealth_driver.py) *)

Module Driver.

(** [class ProtocolError(IntEnum)]. *)
Definition NOT_FOUND : Z := -32001.
Definition STALE_INTENT : Z := -32002.
Definition TIMEOUT_EXCEEDED : Z := -32003.
Definition OBSTRUCTED : Z := -32004.
Definition DRIVER_CRASH : Z := -32005.

Definition protocol_codes : list Z :=
  [NOT_FOUND; STALE_INTENT; TIMEOUT_EXCEEDED; OBSTRUCTED; DRIVER_CRASH].

(** [map_exception_to_protocol(e, selector)]; the selector is the
    value of [params.get("selector")]. *)
Definition map_exception_to_protocol (e : exc) (selector : pyval) : Z * string :=
  let error_msg :=
    if str_truthy (exc_str e) then exc_str e else class_name (exc_cls e) in
  let context := if truthy selector then ": " ++ py_str selector else "" in
  let low := lower error_msg in
  if (match exc_cls e with NoSuchElementException => true | _ => false end)
     || contains low "no such element"
  then (NOT_FOUND, "NOT_FOUND" ++ context)
  else if (match exc_cls e with StaleElementReferenceException => true | _ => false end)
     || contains low "stale"
  then (STALE_INTENT, "STALE_INTENT" ++ context)
  else if (match exc_cls e with TimeoutException => true | _ => false end)
     || contains low "timeout"
  then (TIMEOUT_EXCEEDED, "TIMEOUT_EXCEEDED" ++ context)
  else if (match exc_cls e with ElementNotInteractableException => true | _ => false end)
     || contains low "not interactable"
  then (OBSTRUCTED, "OBSTRUCTED" ++ context)
  else if is_webdriver_exc (exc_cls e)
  then (DRIVER_CRASH, "DRIVER_CRASH: " ++ error_msg)
  else (DRIVER_CRASH, error_msg).

(** [make_error_response] and [make_success_response]. *)
Definition make_error_response (code : Z) (message : string) (request_id : pyval)
  : pyval :=
  PDict [("jsonrpc", PStr "2.0");
         ("error", PDict [("code", PInt code); ("message", PStr message)]);
         ("id", request_id)].

Definition make_success_response (result : pyval) (request_id : pyval) : pyval :=
  PDict [("jsonrpc", PStr "2.0"); ("result", result); ("id", request_id)].

Definition dummy_png : string :=
  "iVBORw0KGgoAAAANSUhEUgAAAAEAAAABCAYAAAAfFcSJAAAADUlEQVR42mP8/5+hHgAHggJ/PchI7wAAAABJRU5ErkJggg==".

(** [is_connection_error] of [_safe_driver_call]: the markers it looks
    for in [str(e).upper()]. *)
Definition is_connection_error (e : exc) : bool :=
  let err_msg := upper (exc_str e) in
  contains err_msg "HTTPCONNECTIONPOOL" || contains err_msg "MAX_RETRIES"
  || contains err_msg "10061" || contains err_msg "REFUSED"
  || contains err_msg "BROKEN PIPE".

(** [self._safe_driver_call(func, ...)] with [retries=2] as every
    method of [StealthDriver] calls it: inside [with self.lock:], the
    lock being a [threading.Lock] (not reentrant). [call i] is what the
    attempt [i] of calling [func] does. An error that is not a
    connection error is raised again; a connection error is retried
    after a sleep; when the last attempt ([i == retries]) fails with
    one, [self.recover()] is called, and its first statement
    [with self.lock:] waits for the lock this very thread holds: the
    call never returns. *)
Fixpoint safe_attempts {A} (call : nat -> exc + A) (i left : nat) : outcome A :=
  match call i with
  | inr v => Ret v
  | inl e =>
      if is_connection_error e then
        match left with
        | O => Hang
        | S l => safe_attempts call (S i) l
        end
      else Exn e
  end.

Definition _safe_driver_call {A} (call : nat -> exc + A) : outcome A :=
  safe_attempts call 0 2.

(** [StealthDriver.screenshot()]. [capture] is the evaluation of
    [self.sb.driver.get_screenshot_as_base64], which raises when the
    browser was never started ([self.sb] is [None]), followed by the
    attempts of that method, each raising or returning the base64
    text. *)
Definition screenshot_ok (data : string) : pyval :=
  PDict [("status", PStr "ok"); ("data", PStr data)].

Definition screenshot (capture : exc + (nat -> exc + string)) : outcome pyval :=
  match capture with
  | inl _ => Ret (screenshot_ok dummy_png)
  | inr call =>
      match _safe_driver_call call with
      | Ret data => Ret (screenshot_ok data)
      | Exn _ => Ret (screenshot_ok dummy_png)
      | Hang => Hang
      end
  end.

(** How one iteration of the main loop ends: the loop goes on, stops,
    or stays blocked in a call that never returns. *)
Inductive loop_next : Type := LoopContinue | LoopStop | LoopBlocked.

Section Dispatch.

(** The other methods of [StealthDriver] [dispatch_command] calls:
    calling method [m] with the argument values [args] returns the
    method's dict, raises, or never returns (each runs its browser calls
    through [_safe_driver_call] under [self.lock]). This is the
    SeleniumBase collaborator, left open. *)
Variable driver_call : string -> list pyval -> outcome pyval.

(** The screenshot capture, as for [screenshot]. *)
Variable capture : exc + (nat -> exc + string).

(** [driver.close()] catches every exception of [__exit__] itself. *)
Definition close_result : pyval := PDict [("status", PStr "ok")].

Definition bindx {A B} (c : exc + A) (k : A -> outcome B) : outcome B :=
  match c with inl e => Exn e | inr x => k x end.

Local Notation "'let?' x := c 'in' k" := (bindx c (fun x => k))
  (at level 200, x name, c at level 100, k at level 200).

Definition str_method (m : pyval) (name : string) : bool :=
  match m with PStr s => String.eqb s name | _ => false end.

(** [dispatch_command(driver, method, params)]. [StealthDriver] has no
    [execute_script] method, so looking it up raises before the
    arguments are evaluated. *)
Definition dispatch_command (method params : pyval) : outcome pyval :=
  if str_method method "initialize" then
    let? h := get params "headless" (PBool false) in driver_call "initialize" [h]
  else if str_method method "goto" then
    let? u := get params "url" (PStr "") in driver_call "goto" [u]
  else if str_method method "click" then
    let? s := get params "selector" (PStr "") in driver_call "click" [s]
  else if str_method method "execute_script" then
    Exn (mkExc AttributeError "'StealthDriver' object has no attribute 'execute_script'")
  else if str_method method "fill" then
    let? s := get params "selector" (PStr "") in
    let? v := get params "value" (PStr "") in driver_call "fill" [s; v]
  else if str_method method "type" then
    let? t := get params "text" (PStr "") in
    let? s := get params "selector" PNone in driver_call "type" [t; s]
  else if str_method method "screenshot" then screenshot capture
  else if str_method method "evaluate" then
    let? s := get params "script" (PStr "") in
    let? a := get params "args" PNone in
    let? en := get params "encoding" PNone in driver_call "evaluate" [s; a; en]
  else if str_method method "press" then
    let? k := get params "key" (PStr "") in
    let? s := get params "selector" PNone in driver_call "press" [k; s]
  else if str_method method "get_page_text" then driver_call "get_page_text" []
  else if str_method method "get_url" then driver_call "get_url" []
  else if str_method method "get_cookies" then driver_call "get_cookies" []
  else if str_method method "set_cookies" then
    let? c := get params "cookies" (PList []) in driver_call "set_cookies" [c]
  else if str_method method "get_storage" then driver_call "get_storage" []
  else if str_method method "set_storage" then
    let? l := get params "localStorage" PNone in
    let? s := get params "sessionStorage" PNone in driver_call "set_storage" [l; s]
  else if str_method method "close" || str_method method "shutdown"
          || str_method method "force_kill" then Ret close_result
  else Exn (mkExc ValueError ("Unknown method: " ++ py_str method)).

(** One iteration of the [while] loop of [main()] on a dequeued
    request (the InputReader only enqueues JSON objects, so [request]
    is a dict). It returns the lines written to stdout (as the response
    objects whose [json.dumps] succeeded) and how the iteration ends.
    An exception escaping the body is caught by the outer
    [except Exception] of the loop, which only logs. [driver.close()]
    sets [is_running] to [False], so the loop ends after a close even
    when the write raises before [break]. *)
Definition main_step (request : list (string * pyval)) : list pyval * loop_next :=
  let method := assoc_get request "method" (PStr "") in
  let params := assoc_get request "params" (PDict []) in
  let request_id := assoc_get request "id" PNone in
  let write (resp : pyval) : list pyval :=
    if json_serializable resp then [resp] else [] in
  if str_method method "close" || str_method method "shutdown"
     || str_method method "force_kill" then
    (write (make_success_response close_result request_id), LoopStop)
  else
    match dispatch_command method params with
    | Ret result => (write (make_success_response result request_id), LoopContinue)
    | Exn e =>
        match get params "selector" PNone with
        | inl _ => ([], LoopContinue)        (* raised inside the except block *)
        | inr selector =>
            let '(code, message) := map_exception_to_protocol e selector in
            (write (make_error_response code message request_id), LoopContinue)
        end
    | Hang => ([], LoopBlocked)
    end.

End Dispatch.

End Driver.

(* ------------------------------------------------------------------ *)
(** ** Sentinel runtime: outgoing messages (sdk/starlight_sdk.py) *)

Module Sdk.

(** What a Sentinel sends to the Hub through [_send_msg]. *)
Inductive sent : Type :=
| SClear                       (* send_clear: starlight.clear *)
| SWait (retry_after_ms : Z)   (* send_wait: starlight.wait *)
| SHijack (reason : string)    (* send_hijack: starlight.hijack *)
| SResume (re_check : bool)    (* send_resume: starlight.resume *)
| SAction (action selector : string) (* send_action: starlight.action *)
| SContext (key : string).     (* update_context: starlight.context_update *)

(** The votes among them: [clear], [wait] or [hijack]. *)
Inductive verdict : Type := VClear | VWait | VHijack.

Definition vote_of (m : sent) : option verdict :=
  match m with
  | SClear => Some VClear
  | SWait _ => Some VWait
  | SHijack _ => Some VHijack
  | _ => None
  end.

Definition votes (ms : list sent) : list verdict := omap vote_of ms.

End Sdk.

Import Sdk.

(* ------------------------------------------------------------------ *)
(** ** Pulse Sentinel (sentinels/pulse_sentinel.py) *)

Module Pulse.
Local Open Scope Q_scope.

Inductive SentinelState : Type := IDLE | ANALYZING | VETOING | CLEARED.

Definition state_eqb (a b : SentinelState) : bool :=
  match a, b with
  | IDLE, IDLE | ANALYZING, ANALYZING | VETOING, VETOING
  | CLEARED, CLEARED => true
  | _, _ => false
  end.

(** The attributes of a [PulseSentinel] that [on_pre_check] and
    [on_entropy] read or write. [entropy_history] is [None] until the
    first entropy event creates the attribute. [veto_count] is first
    assigned by the reset of the first pre-check ([current_command_id]
    starts as [None], which no command key equals). *)
Record pulse := mkPulse {
  state : SentinelState;
  max_veto_count : Z;            (* config sentinel.maxVetoCount, default 3 *)
  veto_count : Z;
  current_command_id : option string;
  last_entropy_time : Q;
  entropy_history : option (list Q);
  pre_checks : Z;
  vetoes : Z;
  clearances : Z
}.

(** Attribute assignments [self.x = v]. *)
Definition set_state (s : pulse) (v : SentinelState) : pulse :=
  mkPulse v (max_veto_count s) (veto_count s) (current_command_id s)
    (last_entropy_time s) (entropy_history s) (pre_checks s) (vetoes s)
    (clearances s).
Definition set_veto_count (s : pulse) (v : Z) : pulse :=
  mkPulse (state s) (max_veto_count s) v (current_command_id s)
    (last_entropy_time s) (entropy_history s) (pre_checks s) (vetoes s)
    (clearances s).
Definition set_current_command_id (s : pulse) (v : option string) : pulse :=
  mkPulse (state s) (max_veto_count s) (veto_count s) v
    (last_entropy_time s) (entropy_history s) (pre_checks s) (vetoes s)
    (clearances s).
Definition set_entropy (s : pulse) (t : Q) (h : list Q) : pulse :=
  mkPulse (state s) (max_veto_count s) (veto_count s) (current_command_id s)
    t (Some h) (pre_checks s) (vetoes s) (clearances s).
Definition bump_metrics (s : pulse) (dp dv dc : Z) : pulse :=
  mkPulse (state s) (max_veto_count s) (veto_count s) (current_command_id s)
    (last_entropy_time s) (entropy_history s) (pre_checks s + dp)%Z
    (vetoes s + dv)%Z (clearances s + dc)%Z.

(** [config.get("sentinel", {}).get("settlementWindow", 0.5)], read at
    each pre-check. *)
Record config := mkConfig { settlementWindow : Q }.

(** The fields of [params["command"]] used by [on_pre_check], after the
    defaults of [.get]: cmd "unknown", goal/selector/url "", hint 0. *)
Record command := mkCommand {
  cmd : string;
  goal : string;
  selector : string;
  url : string;
  stabilityHint : Q
}.

(** [cmd_key = goal or selector or url or cmd]. *)
Definition cmd_key (c : command) : string :=
  if str_truthy (goal c) then goal c
  else if str_truthy (selector c) then selector c
  else if str_truthy (url c) then url c
  else cmd c.

(** Python's [max(a, b)] and [min(a, b)] on numbers. *)
Definition pymax (a b : Q) : Q := if Qlt_le_dec a b then b else a.
Definition pymin (a b : Q) : Q := if Qlt_le_dec b a then b else a.

(** The window [on_pre_check] compares the silence with. *)
Definition current_window (cfg : config) (c : command) : Q :=
  let base_window := settlementWindow cfg in
  let dynamic_window :=
    pymax base_window (pymin 2 (stabilityHint c / 1000 + (1 # 10))) in
  if Qlt_le_dec 0 (stabilityHint c) then dynamic_window else base_window.

(** [_is_rhythmic_animation]. *)
Fixpoint intervals (h : list Q) : list Q :=
  match h with
  | a :: ((b :: _) as r) => (b - a) :: intervals r
  | _ => []
  end.

Definition qsum (l : list Q) : Q := fold_right Qplus 0 l.

Definition avg_interval (h : list Q) : Q :=
  qsum (intervals h) / inject_Z (Z.of_nat (length (intervals h))).

Definition variance (h : list Q) : Q :=
  let avg := avg_interval h in
  qsum (map (fun x => (x - avg) * (x - avg)) (intervals h))
  / inject_Z (Z.of_nat (length (intervals h))).

Definition is_rhythmic_history (h : list Q) : bool :=
  if (length h <? 5)%nat then false
  else if Qlt_le_dec (avg_interval h) (1 # 10) then false
  else if Qlt_le_dec (variance h) (5 # 1000) then true else false.

Definition _is_rhythmic_animation (s : pulse) : bool :=
  match entropy_history s with
  | None => false
  | Some h => is_rhythmic_history h
  end.

(** Reading an attribute after an assignment. *)
Lemma state_set_state (s : pulse) (v : SentinelState) : state (set_state s v) = v.
Proof. reflexivity. Qed.
Lemma max_veto_count_set_state (s : pulse) (v : SentinelState) : max_veto_count (set_state s v) = max_veto_count s.
Proof. reflexivity. Qed.
Lemma veto_count_set_state (s : pulse) (v : SentinelState) : veto_count (set_state s v) = veto_count s.
Proof. reflexivity. Qed.
Lemma current_command_id_set_state (s : pulse) (v : SentinelState) : current_command_id (set_state s v) = current_command_id s.
Proof. reflexivity. Qed.
Lemma last_entropy_time_set_state (s : pulse) (v : SentinelState) : last_entropy_time (set_state s v) = last_entropy_time s.
Proof. reflexivity. Qed.
Lemma entropy_history_set_state (s : pulse) (v : SentinelState) : entropy_history (set_state s v) = entropy_history s.
Proof. reflexivity. Qed.
Lemma is_rhythmic_animation_set_state (s : pulse) (v : SentinelState) : _is_rhythmic_animation (set_state s v) = _is_rhythmic_animation s.
Proof. reflexivity. Qed.
Lemma state_set_veto_count (s : pulse) (v : Z) : state (set_veto_count s v) = state s.
Proof. reflexivity. Qed.
Lemma max_veto_count_set_veto_count (s : pulse) (v : Z) : max_veto_count (set_veto_count s v) = max_veto_count s.
Proof. reflexivity. Qed.
Lemma veto_count_set_veto_count (s : pulse) (v : Z) : veto_count (set_veto_count s v) = v.
Proof. reflexivity. Qed.
Lemma current_command_id_set_veto_count (s : pulse) (v : Z) : current_command_id (set_veto_count s v) = current_command_id s.
Proof. reflexivity. Qed.
Lemma last_entropy_time_set_veto_count (s : pulse) (v : Z) : last_entropy_time (set_veto_count s v) = last_entropy_time s.
Proof. reflexivity. Qed.
Lemma entropy_history_set_veto_count (s : pulse) (v : Z) : entropy_history (set_veto_count s v) = entropy_history s.
Proof. reflexivity. Qed.
Lemma is_rhythmic_animation_set_veto_count (s : pulse) (v : Z) : _is_rhythmic_animation (set_veto_count s v) = _is_rhythmic_animation s.
Proof. reflexivity. Qed.
Lemma state_set_current_command_id (s : pulse) (v : option string) : state (set_current_command_id s v) = state s.
Proof. reflexivity. Qed.
Lemma max_veto_count_set_current_command_id (s : pulse) (v : option string) : max_veto_count (set_current_command_id s v) = max_veto_count s.
Proof. reflexivity. Qed.
Lemma veto_count_set_current_command_id (s : pulse) (v : option string) : veto_count (set_current_command_id s v) = veto_count s.
Proof. reflexivity. Qed.
Lemma current_command_id_set_current_command_id (s : pulse) (v : option string) : current_command_id (set_current_command_id s v) = v.
Proof. reflexivity. Qed.
Lemma last_entropy_time_set_current_command_id (s : pulse) (v : option string) : last_entropy_time (set_current_command_id s v) = last_entropy_time s.
Proof. reflexivity. Qed.
Lemma entropy_history_set_current_command_id (s : pulse) (v : option string) : entropy_history (set_current_command_id s v) = entropy_history s.
Proof. reflexivity. Qed.
Lemma is_rhythmic_animation_set_current_command_id (s : pulse) (v : option string) : _is_rhythmic_animation (set_current_command_id s v) = _is_rhythmic_animation s.
Proof. reflexivity. Qed.
Lemma state_bump_metrics (s : pulse) (a b c : Z) : state (bump_metrics s a b c) = state s.
Proof. reflexivity. Qed.
Lemma max_veto_count_bump_metrics (s : pulse) (a b c : Z) : max_veto_count (bump_metrics s a b c) = max_veto_count s.
Proof. reflexivity. Qed.
Lemma veto_count_bump_metrics (s : pulse) (a b c : Z) : veto_count (bump_metrics s a b c) = veto_count s.
Proof. reflexivity. Qed.
Lemma current_command_id_bump_metrics (s : pulse) (a b c : Z) : current_command_id (bump_metrics s a b c) = current_command_id s.
Proof. reflexivity. Qed.
Lemma last_entropy_time_bump_metrics (s : pulse) (a b c : Z) : last_entropy_time (bump_metrics s a b c) = last_entropy_time s.
Proof. reflexivity. Qed.
Lemma entropy_history_bump_metrics (s : pulse) (a b c : Z) : entropy_history (bump_metrics s a b c) = entropy_history s.
Proof. reflexivity. Qed.
Lemma is_rhythmic_animation_bump_metrics (s : pulse) (a b c : Z) : _is_rhythmic_animation (bump_metrics s a b c) = _is_rhythmic_animation s.
Proof. reflexivity. Qed.

Create Rewrite HintDb pulse.
#[export] Hint Rewrite state_set_state max_veto_count_set_state veto_count_set_state current_command_id_set_state last_entropy_time_set_state entropy_history_set_state is_rhythmic_animation_set_state state_set_veto_count max_veto_count_set_veto_count veto_count_set_veto_count current_command_id_set_veto_count last_entropy_time_set_veto_count entropy_history_set_veto_count is_rhythmic_animation_set_veto_count state_set_current_command_id max_veto_count_set_current_command_id veto_count_set_current_command_id current_command_id_set_current_command_id last_entropy_time_set_current_command_id entropy_history_set_current_command_id is_rhythmic_animation_set_current_command_id state_bump_metrics max_veto_count_bump_metrics veto_count_bump_metrics current_command_id_bump_metrics last_entropy_time_bump_metrics entropy_history_bump_metrics is_rhythmic_animation_bump_metrics : pulse.

Ltac pulse_simpl :=
  repeat progress (autorewrite with pulse; cbn [state_eqb fst snd]).

(** Whether the silence reaches the window, at wall-clock time [now]. *)
Definition settled (cfg : config) (s : pulse) (c : command) (now : Q) : bool :=
  if Qle_bool (current_window cfg c) (now - last_entropy_time s) then true
  else false.

(** [cmd_key != self.current_command_id] is false exactly when equal. *)
Definition key_eq (k : string) (cur : option string) : Prop := Some k = cur.
#[export] Instance key_eq_dec k cur : Decision (key_eq k cur).
Proof. unfold key_eq. apply _. Defined.

(** [int(x)] of a positive float is its floor. *)
Definition py_int (q : Q) : Z := Qfloor q.

(** [on_pre_check(params, msg_id)] at wall-clock time [now]: the new
    attributes and the messages sent, in order ([_emit_telemetry] sends
    a context update). *)
Definition on_pre_check (cfg : config) (s : pulse) (c : command) (now : Q)
  : pulse * list sent :=
  let s := bump_metrics (set_state s ANALYZING) 1%Z 0%Z 0%Z in
  let out := [SContext "pulse_telemetry"] in
  let key := cmd_key c in
  let s := if decide (key_eq key (current_command_id s)) then s
           else set_current_command_id (set_veto_count s 0%Z) (Some key) in
  let window := current_window cfg c in
  let is_rhythmic := _is_rhythmic_animation s in
  let silence_duration := now - last_entropy_time s in
  let s := if Qle_bool window silence_duration then set_state s CLEARED
           else if is_rhythmic then set_state s CLEARED
           else s in
  if state_eqb (state s) CLEARED then
    (bump_metrics (set_veto_count s 0%Z) 0%Z 0%Z 1%Z,
     (out ++ [SContext "pulse_telemetry"; SClear])%list)
  else if Z.leb (max_veto_count s) (veto_count s) then
    (set_state (set_veto_count s 0%Z) CLEARED, (out ++ [SClear])%list)
  else
    let wait_time := pymax (1 # 5) (window - silence_duration) in
    (bump_metrics (set_veto_count (set_state s VETOING) (veto_count s + 1)%Z) 0%Z 1%Z 0%Z,
     (out ++ [SContext "pulse_telemetry"; SWait (py_int (wait_time * 1000))])%list).

(** [on_entropy(params)] at time [now]. *)
Definition on_entropy (s : pulse) (entropy : bool) (now : Q) : pulse :=
  if entropy then
    let h := match entropy_history s with None => [] | Some h => h end in
    let h := (h ++ [now])%list in
    let h := if (10 <? length h)%nat then tail h else h in
    set_state (set_entropy s now h) IDLE
  else s.

(** A run of consecutive pre-checks, each with its clock reading. *)
Fixpoint run_pre_checks (cfg : config) (s : pulse) (ps : list (command * Q))
  : pulse * list sent :=
  match ps with
  | [] => (s, [])
  | (c, now) :: r =>
      let '(s1, o1) := on_pre_check cfg s c now in
      let '(s2, o2) := run_pre_checks cfg s1 r in
      (s2, (o1 ++ o2)%list)
  end.

End Pulse.

(* ------------------------------------------------------------------ *)
(** ** PII Sentinel (sentinels/pii_sentinel.py) *)

Module Pii.

(** [_redact(value)]. *)
Fixpoint stars (n : nat) : string :=
  match n with O => "" | S k => String (Ascii.ascii_of_nat 42) (stars k) end.

Definition _redact (value : string) : string :=
  let n := String.length value in
  if (n <=? 4)%nat then "****"
  else String.substring 0 2 value ++ stars (n - 4) ++ String.substring (n - 2) 2 value.

Record finding := mkFinding {
  ftype : string;
  fvalue : string;
  raw_length : nat
}.

(** The compiled pattern dict [self.patterns], in iteration order: each
    name with the [findall] of its compiled regex. *)
Definition patterns := list (string * (string -> list string)).

(** [scan_for_pii(text)]. *)
Definition scan_for_pii (pats : patterns) (text : string) : list finding :=
  flat_map (fun '(pii_type, findall) =>
              map (fun m => mkFinding pii_type (_redact m) (String.length m))
                  (findall text))
           pats.

(** [str.isspace] on one character (a code point below 256), and
    [text.strip() != ""]: the whitespace [str.strip] removes is
    \t \n \x0b \x0c \r, the separators \x1c-\x1f, the space, \x85 (NEL)
    and \xa0 (NBSP). *)
Definition is_space (a : Ascii.ascii) : bool :=
  match Ascii.nat_of_ascii a with
  | 9 | 10 | 11 | 12 | 13 | 28 | 29 | 30 | 31 | 32 | 133 | 160 => true
  | _ => false
  end%nat.

Fixpoint nonblank (s : string) : bool :=
  match s with
  | EmptyString => false
  | String a r => negb (is_space a) || nonblank r
  end.

(** [all_text = page_text] followed by [" " + element.get("text", "")]
    for each blocking element. *)
Definition all_text (page_text : string) (blocking_texts : list string) : string :=
  fold_left (fun acc t => acc ++ " " ++ t) blocking_texts page_text.

Fixpoint dedup (l : list string) : list string :=
  match l with
  | [] => []
  | x :: r => if existsb (String.eqb x) r then dedup r else x :: dedup r
  end.

Fixpoint join (l : list string) : string :=
  match l with
  | [] => ""
  | [x] => x
  | x :: r => x ++ ", " ++ join r
  end.

(** [on_pre_check(params, msg_id)] for a given [pii.mode]: the messages
    sent ([_log_pii_event] is a context update; [asyncio.sleep] sends
    nothing). *)
Definition on_pre_check (mode : string) (pats : patterns)
  (page_text : string) (blocking_texts : list string) : list sent :=
  let text := all_text page_text blocking_texts in
  if nonblank text then
    let findings := scan_for_pii pats text in
    match findings with
    | [] => [SClear]
    | _ :: _ =>
        (* [list(set(...))]: the order of a Python set is unspecified *)
        let types_found := dedup (map ftype findings) in
        if String.eqb mode "block" then
          [SHijack ("PII Compliance Block: [" ++ join types_found ++ "]");
           SContext "security"; SResume false]
        else if String.eqb mode "alert" then [SContext "security"; SClear]
        else [SClear]
    end
  else [SClear].

(** Regexes of the form [\b<fixed sequence of character classes>\b]
    (the default "ssn" pattern is one), with [re.findall]'s leftmost,
    non-overlapping scan. *)
Definition is_word (a : Ascii.ascii) : bool :=
  let n := Ascii.nat_of_ascii a in
  (* [\w] on a code point below 256: the ASCII letters and digits, [_],
     and the Latin-1 alphanumerics (ª ² ³ µ ¹ º ¼ ½ ¾ and the letters
     \xc0-\xff except × and ÷) *)
  (((48 <=? n) && (n <=? 57)) || ((65 <=? n) && (n <=? 90))
   || ((97 <=? n) && (n <=? 122)) || (n =? 95)
   || (n =? 170) || (n =? 178) || (n =? 179) || (n =? 181) || (n =? 185)
   || (n =? 186) || ((188 <=? n) && (n <=? 190))
   || ((192 <=? n) && (n <=? 255) && negb (n =? 215) && negb (n =? 247)))%nat.

Definition word_at (a : option Ascii.ascii) : bool :=
  match a with Some c => is_word c | None => false end.

Definition boundary (prev next : option Ascii.ascii) : bool :=
  xorb (word_at prev) (word_at next).

Fixpoint match_shape (shape : list (Ascii.ascii -> bool)) (l : list Ascii.ascii)
  : option (list Ascii.ascii * list Ascii.ascii) :=
  match shape, l with
  | [], _ => Some ([], l)
  | p :: shape', c :: l' =>
      if p c then
        match match_shape shape' l' with
        | Some (m, rest) => Some (c :: m, rest)
        | None => None
        end
      else None
  | _ :: _, [] => None
  end.

Fixpoint scan_shape (shape : list (Ascii.ascii -> bool))
  (prev : option Ascii.ascii) (skip : nat) (l : list Ascii.ascii)
  : list string :=
  match l with
  | [] => []
  | c :: r =>
      match skip with
      | S k => scan_shape shape (Some c) k r
      | O =>
          match match_shape shape l with
          | Some (m, rest) =>
              if boundary prev (Some c) && boundary (last m) (head rest)
              then String.string_of_list_ascii m
                     :: scan_shape shape (Some c) (length m - 1) r
              else scan_shape shape (Some c) 0 r
          | None => scan_shape shape (Some c) 0 r
          end
      end
  end.

Definition findall_shape (shape : list (Ascii.ascii -> bool)) (text : string)
  : list string :=
  scan_shape shape None 0 (String.list_ascii_of_string text).

Definition is_digit (a : Ascii.ascii) : bool :=
  let n := Ascii.nat_of_ascii a in ((48 <=? n) && (n <=? 57))%nat.
Definition is_dash (a : Ascii.ascii) : bool := Ascii.eqb a (Ascii.ascii_of_nat 45).

(** The default pattern [\b\d{3}-\d{2}-\d{4}\b]. *)
Definition ssn_findall : string -> list string :=
  findall_shape [is_digit; is_digit; is_digit; is_dash; is_digit; is_digit;
                 is_dash; is_digit; is_digit; is_digit; is_digit].

(** A user-supplied pattern [\b\d{3}\b] (from [pii.patterns]). *)
Definition pin_findall : string -> list string :=
  findall_shape [is_digit; is_digit; is_digit].

End Pii.

(** Modelled from the spec: the Hub's command state machine (the Hub is
    not among the Python sources) as it reacts to the messages of the
    hijacking Sentinel during one pre-check (section 4.5): a hijack vote
    moves VOTING to HIJACKED; in HIJACKED, [resume(re_check)] re-enters
    PRE_CHECK when [re_check] is true and goes to DISPATCHED otherwise;
    a clear vote from VOTING (the only voter) dispatches. *)
Module Hub.

Inductive cmd_state : Type :=
| VOTING | HIJACKED | PRE_CHECK | DISPATCHED.

Definition hub_step (st : cmd_state) (m : sent) : cmd_state :=
  match st, m with
  | VOTING, SHijack _ => HIJACKED
  | VOTING, SClear => DISPATCHED
  | HIJACKED, SResume true => PRE_CHECK
  | HIJACKED, SResume false => DISPATCHED
  | st, _ => st
  end.

Definition hub_run (ms : list sent) : cmd_state := fold_left hub_step ms VOTING.

End Hub.

(* ------------------------------------------------------------------ *)
(** ** The persistent memory file (sdk/starlight_sdk.py) *)

(** The file system as a map from path to file contents; [json.dump]
    and [json.load] are given as functions; the outcome of each system
    call that may fail ([tempfile.mkstemp], [shutil.move], [os.unlink])
    is an explicit argument. [shutil.move] within one directory is
    [os.rename], which replaces the destination in one step. *)
Module Memory.
Import Py.

Abbreviation fs := (gmap string string).

Section Memory.

(** [json.dump(self.memory, f, indent=4)]: the chunks it writes to the
    file, and whether it returned normally ([false]: it raised after
    writing them, e.g. on a value that is not serializable). *)
Variable json_dump : pyval -> list string * bool.

(** [json.load(f)] on the text of a file: [None] is [JSONDecodeError]. *)
Variable json_loads : string -> option pyval.

(** [_load_memory()]: the value of [self.memory] afterwards. [open_ok]
    is [false] when [open] or the read raises an exception other than
    [JSONDecodeError] (both [except] branches catch, so nothing
    propagates). *)
Definition _load_memory (memory : pyval) (fs0 : fs) (memory_file : string)
  (open_ok : bool) : pyval :=
  match fs0 !! memory_file with
  | None => memory
  | Some content =>
      if open_ok then
        match json_loads content with
        | Some v => v
        | None => PDict []
        end
      else memory
  end.

(** What [shutil.move(temp_path, self.memory_file)] does. It first tries
    [os.rename]; when that raises [OSError] (on Windows it always does
    once the memory file exists, as [os.rename] refuses to replace a
    file there), it falls back to [copy2(temp_path, memory_file)] and
    then [os.unlink(temp_path)]. [copy2] opens the destination for
    writing, which truncates it, and copies the text in blocks of
    [bufsize] characters. [Renamed]: the rename succeeded. [MoveRaised]:
    the move raised before opening the destination. [Copied bufsize
    fails]: the copy fallback ran; [fails = Some k] when it raised
    after [k] blocks were written, [None] when it completed. *)
Inductive move_run : Type :=
| Renamed
| MoveRaised
| Copied (bufsize : positive) (fails : option nat).

(** The number of blocks [copy2] writes to copy [content] in blocks of
    [bs] characters: the length divided by [bs], rounded up. *)
Definition copy_blocks (content : string) (bs : nat) : nat :=
  Nat.div (String.length content + bs - 1) bs.

(** [_save_memory()]: the states the file system goes through (after
    [mkstemp], after each chunk written, then during the copy fallback
    of the move), and the state it is left in. [tmp] is the path
    [mkstemp] returns ([None]: it raised). [unlink_ok] is whether
    [os.unlink(temp_path)] succeeds: the one of the [except] branch, or
    the one of [shutil.move] after a completed copy. *)
Definition _save_memory (memory : pyval) (fs0 : fs) (memory_file : string)
  (tmp : option string) (mv : move_run) (unlink_ok : bool) : list fs * fs :=
  match tmp with
  | None => ([], fs0)
  | Some temp_path =>
      let '(chunks, dump_ok) := json_dump memory in
      let content := String.concat "" chunks in
      let written n := <[temp_path := String.concat "" (take n chunks)]> fs0 in
      let states := map written (seq 0 (S (length chunks))) in
      let fsw := written (length chunks) in
      let unlink_tmp (st : fs) := if unlink_ok then delete temp_path st else st in
      if dump_ok then
        match mv with
        | Renamed => (states, <[memory_file := content]> (delete temp_path fsw))
        | MoveRaised => (states, unlink_tmp fsw)
        | Copied bufsize fails =>
            let bs := Pos.to_nat bufsize in
            let copied k := <[memory_file := String.substring 0 (k * bs) content]> fsw in
            match fails with
            | None =>
                ((states ++ map copied (seq 0 (S (copy_blocks content bs))))%list,
                 unlink_tmp (<[memory_file := content]> fsw))
            | Some k =>
                let k' := Nat.min k (copy_blocks content bs) in
                ((states ++ map copied (seq 0 (S k')))%list, unlink_tmp (copied k'))
            end
        end
      else (states, unlink_tmp fsw)
  end.

End Memory.

End Memory.

(* ------------------------------------------------------------------ *)
(** ** Janitor Sentinel: learned memory (sentinels/janitor.py) *)

(** The SDK runs each incoming message in its own task
    ([asyncio.create_task(self._handle_protocol(data))]), so a
    [perform_remediation] in progress can be interleaved with
    [on_message]. [perform_remediation] is cut at its awaits:
    [remediation_begin] runs up to its first await (it is entered from
    [on_pre_check] with no await before), [remediation_end] is the
    assignment of [last_action], and the later assignments of the state
    (RESUMED, then IDLE) are steps of their own (module [JanitorRuns]);
    the code between only sends messages and sleeps. The learned map
    holds the selectors the Janitor stores, as strings. *)
Module Janitor.
Import Py Sdk.

Inductive SentinelState : Type := IDLE | ANALYZING | HIJACKING | RESUMED | ERROR.

Record last_action_t := mkLastAction {
  la_id : string;
  la_selector : string;
  la_known : bool
}.

Record janitor := mkJanitor {
  state : SentinelState;
  memory : gmap string string;
  last_action : option last_action_t;
  recovery_successful : bool;
  saves : nat  (* calls of [_save_memory] *)
}.

Definition set_state (st : SentinelState) (s : janitor) : janitor :=
  mkJanitor st (memory s) (last_action s) (recovery_successful s) (saves s).
Definition set_memory (m : gmap string string) (s : janitor) : janitor :=
  mkJanitor (state s) m (last_action s) (recovery_successful s) (saves s).
Definition set_last_action (a : option last_action_t) (s : janitor) : janitor :=
  mkJanitor (state s) (memory s) a (recovery_successful s) (saves s).
Definition set_recovery_successful (b : bool) (s : janitor) : janitor :=
  mkJanitor (state s) (memory s) (last_action s) b (saves s).
Definition save_memory (s : janitor) : janitor :=
  mkJanitor (state s) (memory s) (last_action s) (recovery_successful s) (S (saves s)).

Definition is_hijacking (st : SentinelState) : bool :=
  match st with HIJACKING => true | _ => false end.

(** [perform_remediation(obstacle_id, msg_id)] up to the assignment of
    [last_action]: [None] when it returns at once (already
    HIJACKING); otherwise the new state and [best_action] when it is
    truthy ([None] selects the heuristic branch). *)
Definition remediation_begin (s : janitor) (obstacle_id : string)
  : option (janitor * option string) :=
  if is_hijacking (state s) then None
  else
    let best_action :=
      match memory s !! obstacle_id with
      | Some b => if str_truthy b then Some b else None
      | None => None
      end in
    Some (set_state HIJACKING s, best_action).

(** The assignment of [last_action] in [perform_remediation]: the
    predictive branch records [{"id": obstacle_id, "selector":
    best_action, "known": True}], the heuristic branch sets
    [last_action = None]. *)
Definition remediation_end (s : janitor) (obstacle_id : string)
  (best_action : option string) : janitor :=
  let a := match best_action with
           | Some b => Some (mkLastAction obstacle_id b true)
           | None => None
           end in
  set_last_action a s.

Definition option_string_eqb (x y : option string) : bool :=
  match x, y with
  | Some a, Some b => String.eqb a b
  | None, None => true
  | _, _ => false
  end.

(** [on_message(method, params, msg_id)]. [starlight.shutdown] saves
    and exits. *)
Definition on_message (s : janitor) (method : string) (params : pyval) : janitor :=
  if String.eqb method "starlight.shutdown" then save_memory s
  else
    match params with
    | PDict kvs =>
        match assoc_get kvs "type" PNone with
        | PStr m_type =>
            if String.eqb m_type "COMMAND_COMPLETE" then
              let s1 := if is_hijacking (state s)
                           && truthy (assoc_get kvs "success" (PBool false))
                        then set_recovery_successful true s else s in
              match last_action s1 with
              | None => s1
              | Some la =>
                  let s2 :=
                    if truthy (assoc_get kvs "success" (PBool true)) then
                      if la_known la then s1
                      else
                        let sel := la_selector la in
                        if str_truthy sel
                           && negb (option_string_eqb (memory s1 !! la_id la) (Some sel))
                        then save_memory (set_memory (<[la_id la := sel]> (memory s1)) s1)
                        else s1
                    else s1 in
                  set_last_action None s2
              end
            else s
        | _ => s
        end
    | _ => s
    end.

(** The Sentinel with its remediations in progress (obstacle and
    [best_action] of each). *)
Record world := mkWorld {
  jan : janitor;
  pending : list (string * option string)
}.

(** [perform_remediation(obstacle_id, msg_id)] up to its first await:
    the remediation is added to the ones in progress. *)
Definition begin_remediation (w : world) (obstacle_id : string) : world :=
  match remediation_begin (jan w) obstacle_id with
  | None => w
  | Some (s, best_action) => mkWorld s (pending w ++ [(obstacle_id, best_action)])
  end.

(** The [i]-th remediation in progress reaches its assignment of
    [last_action]; it is then past every step that reads or writes the
    learned map or [last_action]. *)
Definition end_remediation (w : world) (i : nat) : world :=
  match pending w !! i with
  | Some (obstacle_id, best_action) =>
      mkWorld (remediation_end (jan w) obstacle_id best_action) (delete i (pending w))
  | None => w
  end.

(** After [start()]: [__init__] sets [last_action = None], and
    [_load_memory] has loaded [mem]. *)
Definition init (mem : gmap string string) : world :=
  mkWorld (mkJanitor IDLE mem None false 0) [].

End Janitor.

(* ------------------------------------------------------------------ *)
(** ** Pulse Sentinel: runs of events *)

(* ------------------------------------------------------------------ *)
(** ** Janitor Sentinel: site recovery (sentinels/janitor.py) *)

(** [handle_site_recovery(params, msg_id)]. The flag
    [recovery_successful] is reset to [False] at the start and set by
    [on_message] while the recovery awaits; [flag n] is its value when
    the loop tests it after [n] clicks have been sent. *)
Module JanitorSite.
Import Py Janitor.

Definition locale_map : list (string * list string) :=
  [("en_gb", ["United Kingdom"; "UK"; "Great Britain"; "England"]);
   ("en_us", ["United States"; "USA"; "US"; "America"]);
   ("en_in", ["India"; "IN"]);
   ("en_ca", ["Canada"; "CA"]);
   ("de_de", ["Germany"; "Deutschland"; "DE"]);
   ("fr_fr", ["France"; "FR"])].

(** [self.locale_map.get(key, [])]. *)
Fixpoint locale_get (m : list (string * list string)) (key : string) : list string :=
  match m with
  | [] => []
  | (k, v) :: r => if String.eqb key k then v else locale_get r key
  end.

Definition strategies (target : string) : list string :=
  ["button:has-text('" ++ target ++ "')";
   "a:has-text('" ++ target ++ "')";
   "[role='button']:has-text('" ++ target ++ "')";
   "*:has-text('" ++ target ++ "')"].

Definition full_sel (selector : string) : string := selector ++ " >> visible=true".

(** The messages sent; the hijack reason is
    [f"Recovering mission locale for tokens: {invariants}"]. *)
Inductive site_msg : Type :=
| SRClear
| SRHijack (invariants : list string)
| SRClick (selector : string)
| SRResume.

Section Loop.
Variable flag : nat -> bool.

(** [for selector in strategies]: the clicks sent and their count so far. *)
Fixpoint inner_loop (sels : list string) (n : nat) : list string * nat :=
  match sels with
  | [] => ([], n)
  | selector :: rest =>
      if flag n then ([], n)
      else let '(cs, m) := inner_loop rest (S n) in (full_sel selector :: cs, m)
  end.

(** [for target in semantic_targets]. *)
Fixpoint outer_loop (targets : list string) (n : nat) : list string :=
  match targets with
  | [] => []
  | target :: rest =>
      let '(cs, m) := inner_loop (strategies target) n in
      if flag m then cs else cs ++ outer_loop rest m
  end.

(** The messages [handle_site_recovery] sends, and the state it leaves
    ([None]: unchanged). *)
Definition handle_site_recovery (invariants : list string)
  : list site_msg * option SentinelState :=
  match invariants with
  | [] => ([SRClear], None)
  | _ :: _ =>
      let semantic_targets := flat_map (fun inv => locale_get locale_map (lower inv)) invariants in
      match semantic_targets with
      | [] => ([SRHijack invariants; SRResume], Some IDLE)
      | _ :: _ =>
          (SRHijack invariants :: map SRClick (outer_loop semantic_targets 0)
             ++ [SRResume], Some IDLE)
      end
  end.

End Loop.

End JanitorSite.

(* ------------------------------------------------------------------ *)
(** ** Janitor Sentinel: pre-check (sentinels/janitor.py) *)

(** [on_pre_check(params, msg_id)] of the Janitor, on top of the world
    of [Janitor]. A blocking element is the dict the Hub reports; the
    Janitor reads its "id", "className" and "tagName" with default ""
    (held here as strings, "" when absent), its "selector" and "rect"
    (absent: [None]); "inputType" is only printed. The deduplication
    attributes [_last_cleared] and [_clear_count] do not exist until the
    first remediation ([None]). When the pre-check hands over to
    [handle_site_recovery] or [perform_remediation], the latter runs
    up to its first await ([begin_remediation]); the first steps of
    [handle_site_recovery] are in module [JanitorRuns]. *)
Module JanitorPre.
Import Py Janitor.

Definition blocking_patterns : list string :=
  [".modal"; ".popup"; "#overlay"; ".obstacle"; "#stabilize-btn";
   ".shadow-overlay"; ".shadow-close-btn";
   ".newsletter"; "#newsletter"; ".subscribe-popup"; "#subscribe-modal";
   "#onetrust-consent-sdk"; "#onetrust-banner-sdk"; ".onetrust-pc-dark-filter";
   "#onetrust-pc-btn-handler"; ".onetrust-banner-overlay";
   "#CybotCookiebotDialog"; ".CybotCookiebotDialogActive";
   ".qc-cmp2-container"; ".qc-cmp2-summary-section";
   "#truste-consent-track"; ".truste-banner";
   "#didomi-host"; ".didomi-popup-container";
   ".cookie-consent"; "#cookie-consent"; ".cookie-banner"; "#cookie-banner";
   ".cookie-notice"; "#cookie-notice"; ".cookie-modal"; "#cookie-modal";
   ".consent-banner"; "#consent-banner"; ".consent-modal"; "#consent-modal";
   ".gdpr-banner"; "#gdpr-banner"; ".privacy-banner"; "#privacy-banner";
   "ytd-consent-bump-v2-lightbox"; "#consent-bump";
   "cookie-accept"; "cookie-dismiss"; "consent-accept"; "consent-reject";
   ".g-recaptcha"; "#recaptcha"; ".recaptcha-checkbox";
   "data-sitekey"; "#captcha"; ".captcha"; "#challenge-form"].

Definition ignored_tags : list string :=
  ["INPUT"; "SELECT"; "TEXTAREA"; "OPTION"; "LABEL"].

Definition generic_patterns : list string :=
  [".modal"; ".popup"; "#overlay"; ".overlay"; ".dialog"].

(** [pattern.lstrip('.#')]. *)
Fixpoint lstrip_dot_hash (s : string) : string :=
  match s with
  | String a r =>
      if Ascii.eqb a (Ascii.ascii_of_nat 46) || Ascii.eqb a (Ascii.ascii_of_nat 35)
      then lstrip_dot_hash r else s
  | EmptyString => EmptyString
  end.

(** [s.split("x")]. *)
Fixpoint split_x (s : string) : list string :=
  match s with
  | EmptyString => [""]
  | String a r =>
      if Ascii.eqb a (Ascii.ascii_of_nat 120) then "" :: split_x r
      else match split_x r with
           | w :: ws => String a w :: ws
           | [] => [String a ""]
           end
  end.

(** [int(s)] on a string (code points below 256): surrounding whitespace, an optional
    sign, decimal digits with single underscores between them; [None]
    is [ValueError]. *)
Definition int_space (a : Ascii.ascii) : bool :=
  match Ascii.nat_of_ascii a with
  | 9 | 10 | 11 | 12 | 13 | 28 | 29 | 30 | 31 | 32 | 133 | 160 => true
  | _ => false
  end%nat.

Fixpoint drop_spaces (l : list Ascii.ascii) : list Ascii.ascii :=
  match l with
  | a :: r => if int_space a then drop_spaces r else l
  | [] => []
  end.

Definition digit_value (a : Ascii.ascii) : Z := Z.of_nat (Ascii.nat_of_ascii a) - 48.

Fixpoint parse_digits (l : list Ascii.ascii) (acc : Z) : option Z :=
  match l with
  | [] => Some acc
  | c :: r =>
      if Pii.is_digit c then parse_digits r (acc * 10 + digit_value c)
      else if Ascii.eqb c (Ascii.ascii_of_nat 95) then
        match r with
        | d :: r' =>
            if Pii.is_digit d then parse_digits r' (acc * 10 + digit_value d) else None
        | [] => None
        end
      else None
  end.

Definition int_of_string (s : string) : option Z :=
  let l := rev (drop_spaces (rev (drop_spaces (String.list_ascii_of_string s)))) in
  let '(sign, body) :=
    match l with
    | c :: r =>
        if Ascii.eqb c (Ascii.ascii_of_nat 45) then (-1, r)
        else if Ascii.eqb c (Ascii.ascii_of_nat 43) then (1, r)
        else (1, l)
    | [] => (1, l)
    end%Z in
  match body with
  | d :: r => if Pii.is_digit d then option_map (Z.mul sign) (parse_digits r (digit_value d))
              else None
  | [] => None
  end.

Record element := mkElement {
  el_id : string;
  className : string;
  el_selector : option string;
  tagName : string;
  rect : option string
}.

(** The first pattern of [blocking_patterns] found in
    [f"{element_id} {classes}".lower()]. *)
Definition matched_pattern (b : element) : option string :=
  let combined := lower (el_id b ++ " " ++ className b) in
  find (fun p => contains combined (lower (lstrip_dot_hash p))) blocking_patterns.

(** The [try] block of the overlap check: whether the element is skipped
    as a small generic one ([IndexError] and [ValueError] are caught and
    the element is kept). *)
Definition small_generic (matched : string) (r : string) : bool :=
  match split_x r with
  | d0 :: d1 :: _ =>
      match int_of_string d0, int_of_string d1 with
      | Some w, Some h =>
          existsb (String.eqb matched) generic_patterns && (w <? 500) && (h <? 500)
      | _, _ => false
      end
  | _ => false
  end%Z.

(** The [for b in blocking] loop up to its first [return]: the
    [obstacle_id] of the first matched element that is not skipped. *)
Fixpoint first_obstacle (target_rect : pyval) (blocking : list element) : option string :=
  match blocking with
  | [] => None
  | b :: rest =>
      match matched_pattern b with
      | None => first_obstacle target_rect rest
      | Some p =>
          let obstacle_id := match el_selector b with Some s => s | None => p end in
          if existsb (String.eqb (upper (tagName b))) ignored_tags
          then first_obstacle target_rect rest
          else
            let skip :=
              match rect b with
              | Some r => truthy target_rect && str_truthy r && small_generic p r
              | None => false
              end in
            if skip then first_obstacle target_rect rest else Some obstacle_id
      end
  end.

Record pre := mkPre {
  pw : world;
  last_cleared : option string;
  clear_count : option Z;
  pre_checks : Z
}.

(** What the pre-check sends or hands over to. *)
Inductive pre_outcome : Type :=
| PSiteRecovery                   (* await self.handle_site_recovery(...) *)
| PNothing                        (* returns without a message *)
| PClear                          (* send_clear(msg_id=msg_id) *)
| PGiveUp                         (* send_clear() after three attempts *)
| PRemediate (obstacle_id : string).  (* await self.perform_remediation(...) *)

Definition set_jan_state (st : SentinelState) (s : pre) : pre :=
  mkPre (mkWorld (set_state st (jan (pw s))) (pending (pw s)))
        (last_cleared s) (clear_count s) (pre_checks s).

Definition remediate (s : pre) (obstacle_id : string) : pre * pre_outcome :=
  (mkPre (begin_remediation (pw s) obstacle_id) (last_cleared s) (clear_count s)
         (pre_checks s), PRemediate obstacle_id).

(** [on_pre_check(params, msg_id)] with [params.get("goal")],
    [params.get("targetRect")] and [params.get("blocking", [])]. *)
Definition on_pre_check (s0 : pre) (goal : pyval) (target_rect : pyval)
  (blocking : list element) : pre * pre_outcome :=
  let s := mkPre (mkWorld (set_state ANALYZING (jan (pw s0))) (pending (pw s0)))
                 (last_cleared s0) (clear_count s0) (pre_checks s0 + 1) in
  if Driver.str_method goal "site_recovery" then (s, PSiteRecovery)
  else if match blocking with [] => true | _ => false end
          || is_hijacking (state (jan (pw s))) then
    if negb (is_hijacking (state (jan (pw s)))) then (set_jan_state IDLE s, PClear)
    else (s, PNothing)
  else
    match first_obstacle target_rect blocking with
    | None => (set_jan_state IDLE s, PClear)
    | Some obstacle_id =>
        if option_string_eqb (last_cleared s) (Some obstacle_id) then
          if match clear_count s with Some c => (c >? 2)%Z | None => false end
          then (s, PGiveUp)
          else
            remediate (mkPre (pw s) (last_cleared s)
                        (Some (match clear_count s with Some c => c | None => 0 end + 1)%Z)
                        (pre_checks s)) obstacle_id
        else remediate (mkPre (pw s) (Some obstacle_id) (Some 1%Z) (pre_checks s))
               obstacle_id
    end.

(** [n] pre-checks with the same parameters, one after the other. *)
Fixpoint pre_check_outcomes (s : pre) (n : nat) (goal target_rect : pyval)
  (blocking : list element) : list pre_outcome :=
  match n with
  | O => []
  | S k =>
      let '(s', o) := on_pre_check s goal target_rect blocking in
      o :: pre_check_outcomes s' k goal target_rect blocking
  end.

End JanitorPre.

(* ------------------------------------------------------------------ *)
(** ** Janitor Sentinel: runs *)

(** A run of the Janitor: the steps in which it assigns its attributes,
    each running from one await of a handler to the next, in any
    interleaving (each incoming message has its own task). A pre-check
    runs [on_pre_check] up to its first await, which includes the start
    of [perform_remediation] or of [handle_site_recovery]. The later
    assignments of the state by a handler in progress (RESUMED and IDLE
    at the end of a remediation, IDLE at the end of a site recovery) are
    the steps [Resumed] and [Idle], which a run may take at any point:
    the runs include every order the tasks can take, and more. *)
Module JanitorRuns.
Import Py Janitor JanitorPre.

Inductive event : Type :=
| PreCheck (goal target_rect : pyval) (blocking : list element)
           (invariants : list string)
    (* a [starlight.pre_check]; [invariants] is
       [params.get("localeInvariants", [])] *)
| Finish (i : nat)    (* the i-th remediation in progress assigns [last_action] *)
| Resumed             (* [self.state = RESUMED] of a remediation *)
| Idle                (* [self.state = IDLE] ending a remediation or a site recovery *)
| Message (method : string) (params : pyval).

(** [handle_site_recovery] with invariants, up to its first await:
    [self.state = HIJACKING], [self.recovery_successful = False]. *)
Definition site_recovery_begin (s : pre) : pre :=
  mkPre (mkWorld (set_recovery_successful false (set_state HIJACKING (jan (pw s))))
                 (pending (pw s)))
        (last_cleared s) (clear_count s) (pre_checks s).

Definition step (s : pre) (e : event) : pre :=
  match e with
  | PreCheck goal target_rect blocking invariants =>
      let '(s', o) := on_pre_check s goal target_rect blocking in
      match o, invariants with
      | PSiteRecovery, _ :: _ => site_recovery_begin s'
      | _, _ => s'
      end
  | Finish i => mkPre (end_remediation (pw s) i) (last_cleared s) (clear_count s)
                      (pre_checks s)
  | Resumed => set_jan_state RESUMED s
  | Idle => set_jan_state IDLE s
  | Message method params =>
      mkPre (mkWorld (on_message (jan (pw s)) method params) (pending (pw s)))
            (last_cleared s) (clear_count s) (pre_checks s)
  end.

Definition run (s : pre) (es : list event) : pre := fold_left step es s.

(** After [start()], with [mem] loaded. *)
Definition start (mem : gmap string string) : pre := mkPre (init mem) None None 0.

End JanitorRuns.

(* ------------------------------------------------------------------ *)
(** ** Configuration (sdk/starlight_sdk.py, sentinels/janitor.py) *)

(** [SentinelBase._load_config()] and the reading of the delays in
    [JanitorSentinel.__init__]. [config_file] is the text of
    config.json ([None]: [os.path.exists] is false); [open_ok] is
    [false] when opening or reading it raises; [json_loads] is
    [json.load] ([None]: [JSONDecodeError]). JSON numbers are the
    integers of [pyval]. *)
Module Config.
Import Py Driver.

Definition default_config : pyval :=
  PDict [("sentinel", PDict [("reconnectDelay", PInt 3); ("heartbeatInterval", PInt 2)])].

Definition _load_config (json_loads : string -> option pyval)
  (config_file : option string) (open_ok : bool) : pyval :=
  match config_file with
  | Some content =>
      if open_ok then
        match json_loads content with
        | Some v => v
        | None => default_config
        end
      else default_config
  | None => default_config
  end.

(** [x / 1000.0]: an [int] (or [bool]) divides; anything else raises
    [TypeError]. *)
Definition div_1000 (x : pyval) : exc + Q :=
  match x with
  | PInt z => inr (inject_Z z / 1000)%Q
  | PBool b => inr (if b then 1 / 1000 else 0)%Q
  | _ => inl (mkExc TypeError "unsupported operand type(s) for /")
  end.

(** Sequencing of code that may raise. *)
Definition bind_exc {A B} (c : exc + A) (k : A -> exc + B) : exc + B :=
  match c with inl e => inl e | inr x => k x end.

(** [janitor_config = self.config.get("janitor", {})], then
    [exploration_delay] and [remediation_delay], in seconds. *)
Definition janitor_delays (config : pyval) : exc + (Q * Q) :=
  bind_exc (get config "janitor" (PDict [])) (fun janitor_config =>
  bind_exc (get janitor_config "explorationDelayMs" (PInt 300)) (fun e =>
  bind_exc (div_1000 e) (fun exploration_delay =>
  bind_exc (get janitor_config "remediationDelayMs" (PInt 1000)) (fun r =>
  bind_exc (div_1000 r) (fun remediation_delay =>
  inr (exploration_delay, remediation_delay)))))).

End Config.

Module PulseRuns.
Local Open Scope Q_scope.
Import Pulse.

(** [self.entropy_history], as a list ([[]] before it exists). *)
Definition history (s : pulse) : list Q :=
  match entropy_history s with None => [] | Some h => h end.

(** The last [k] elements of a list. *)
Definition lastn {A} (k : nat) (l : list A) : list A := drop (length l - k) l.

(** The messages the Hub delivers to the Pulse Sentinel that change its
    attributes: a pre-check, or an entropy-stream event. *)
Inductive pulse_event : Type :=
| PreCheck (c : command) (now : Q)
| Entropy (entropy : bool) (now : Q).

Definition pulse_step (cfg : config) (s : pulse) (e : pulse_event) : pulse :=
  match e with
  | PreCheck c now => fst (on_pre_check cfg s c now)
  | Entropy entropy now => on_entropy s entropy now
  end.

Definition run_pulse (cfg : config) (s : pulse) (es : list pulse_event) : pulse :=
  fold_left (pulse_step cfg) es s.

(** The verdicts the Pulse Sentinel sends over a run, in order: the
    votes of each pre-check (entropy events send none). *)
Fixpoint run_votes (cfg : config) (s : pulse) (es : list pulse_event)
  : list verdict :=
  match es with
  | [] => []
  | PreCheck c now :: r =>
      (votes (snd (on_pre_check cfg s c now))
       ++ run_votes cfg (fst (on_pre_check cfg s c now)) r)%list
  | Entropy entropy now :: r => run_votes cfg (on_entropy s entropy now) r
  end.

End PulseRuns.

(* ------------------------------------------------------------------ *)
(** ** Stealth driver: exception mapping, screenshot, main loop *)

Module DriverFacts.
Import Driver.

(** The code a class gets when the message carries no keyword. *)
Definition class_code (c : exc_class) : Z :=
  match c with
  | NoSuchElementException => NOT_FOUND
  | StaleElementReferenceException => STALE_INTENT
  | TimeoutException => TIMEOUT_EXCEEDED
  | ElementNotInteractableException => OBSTRUCTED
  | _ => DRIVER_CRASH
  end.

(** The text the mapper inspects: [str(e) or type(e).__name__], lower-cased. *)
Definition mapped_text (e : exc) : string :=
  lower (if str_truthy (exc_str e) then exc_str e else class_name (exc_cls e)).

Definition keyword_free (e : exc) : bool :=
  negb (contains (mapped_text e) "no such element"
        || contains (mapped_text e) "stale"
        || contains (mapped_text e) "timeout"
        || contains (mapped_text e) "not interactable").

(** The four tests of the mapper, tried in this order: the exception
    has the class of the code, or the inspected text has its keyword. *)
Definition rule_not_found (e : exc) : bool :=
  match exc_cls e with NoSuchElementException => true | _ => false end
  || contains (mapped_text e) "no such element".
Definition rule_stale (e : exc) : bool :=
  match exc_cls e with StaleElementReferenceException => true | _ => false end
  || contains (mapped_text e) "stale".
Definition rule_timeout (e : exc) : bool :=
  match exc_cls e with TimeoutException => true | _ => false end
  || contains (mapped_text e) "timeout".
Definition rule_obstructed (e : exc) : bool :=
  match exc_cls e with ElementNotInteractableException => true | _ => false end
  || contains (mapped_text e) "not interactable".

(** The code the first test that holds decides, DRIVER_CRASH when none
    holds. *)
Definition first_rule_code (e : exc) : Z :=
  if rule_not_found e then NOT_FOUND
  else if rule_stale e then STALE_INTENT
  else if rule_timeout e then TIMEOUT_EXCEEDED
  else if rule_obstructed e then OBSTRUCTED
  else DRIVER_CRASH.

Example map_stale_with_timeout : fst (map_exception_to_protocol
  (mkExc StaleElementReferenceException "Message: timeout while waiting") PNone)
  = STALE_INTENT.
Proof. reflexivity. Qed.

Example map_no_such : fst (map_exception_to_protocol
  (mkExc NoSuchElementException "Message: no such element") (PStr "#btn"))
  = NOT_FOUND.
Proof. reflexivity. Qed.

Example map_generic : map_exception_to_protocol
  (mkExc (OtherException "KeyError") "'x'") PNone = (DRIVER_CRASH, "'x'").
Proof. reflexivity. Qed.



(** A browser whose driver process is gone: every attempt fails with
    urllib3's connection error. *)
Definition lost_browser : nat -> exc + string :=
  fun _ => inl (mkExc (OtherException "MaxRetryError")
    ("HTTPConnectionPool(host='localhost', port=9515): Max retries exceeded " ++
     "with url: /session/1/screenshot (Caused by NewConnectionError('Failed " ++
     "to establish a new connection: [Errno 111] Connection refused'))")).

(** C9 (code_bug): [screenshot] never answers anything but status "ok"
    when it returns, and a capture that raises a non-connection error
    (or a browser never started) gives the fixed 1x1 PNG, a response
    identical to a successful capture of that very PNG. But when the
    browser connection is lost, so that the three attempts of
    [_safe_driver_call] all fail with a connection error, the call
    never returns: [recover()] waits for [self.lock], which
    [screenshot] itself holds. *)
Theorem screenshot_deadlocks_on_lost_connection (call : nat -> exc + string)
  (Hconn : forall i, (i <= 2)%nat ->
     exists e, call i = inl e /\ is_connection_error e = true) :
  screenshot (inr call) = Hang /\
  (forall capture, screenshot capture = Hang
     \/ exists data, screenshot capture = Ret (screenshot_ok data)) /\
  (forall e, screenshot (inl e) = Ret (screenshot_ok dummy_png)) /\
  (forall call', (exists e, call' 0%nat = inl e /\ is_connection_error e = false) ->
     screenshot (inr call') = Ret (screenshot_ok dummy_png)
     /\ screenshot (inr call') = screenshot (inr (fun _ => inr dummy_png))).
Proof.
  split; [| split; [| split]].
  - destruct (Hconn 0%nat ltac:(lia)) as (e0 & H0 & C0).
    destruct (Hconn 1%nat ltac:(lia)) as (e1 & H1 & C1).
    destruct (Hconn 2%nat ltac:(lia)) as (e2 & H2 & C2).
    unfold screenshot, _safe_driver_call. cbn [safe_attempts].
    rewrite H0, C0, H1, C1, H2, C2. reflexivity.
  - intros [e | c]; cbn [screenshot]; [right; eexists; reflexivity |].
    destruct (_safe_driver_call c); [right; eexists; reflexivity
                                    | right; eexists; reflexivity | left; reflexivity].
  - intros e. reflexivity.
  - intros call' (e & H0 & C0). unfold screenshot, _safe_driver_call. cbn [safe_attempts].
    rewrite H0, C0. split; reflexivity.
Qed.

Lemma screenshot_deadlocks_on_lost_connection_witness :
  (forall i, (i <= 2)%nat ->
     exists e, lost_browser i = inl e /\ is_connection_error e = true) /\
  screenshot (inr lost_browser) = Hang.
Proof.
  assert (H : forall i, (i <= 2)%nat ->
     exists e, lost_browser i = inl e /\ is_connection_error e = true).
  { intros i _. eexists. split; [reflexivity | vm_compute; reflexivity]. }
  split; [exact H |].
  exact (proj1 (screenshot_deadlocks_on_lost_connection lost_browser H)).
Defined.

(** A JSON-RPC 2.0 request with by-position (array) params. *)
Definition click_by_position : list (string * pyval) :=
  [("jsonrpc", PStr "2.0"); ("method", PStr "click");
   ("params", PList [PStr "#btn"]); ("id", PInt 7)].

(** C10 (code_bug): on the request above the main loop writes no line
    at all: [dispatch_command] raises [AttributeError] on [params.get],
    and the [except] block raises again on [params.get("selector")], so
    the outer handler only logs and the loop goes on. This holds
    whatever the browser does. *)
Theorem main_step_array_params_no_response
  (driver_call : string -> list pyval -> outcome pyval)
  (capture : exc + (nat -> exc + string)) :
  main_step driver_call capture click_by_position = ([], LoopContinue).
Proof. reflexivity. Qed.

End DriverFacts.

(* ------------------------------------------------------------------ *)
(** ** Pulse Sentinel: veto cap, rhythmic tolerance, dynamic window *)

Module PulseFacts.
Local Open Scope Q_scope.
Import Pulse PulseRuns.

(** The veto count a pre-check for [key] starts from: the stored count
    for the same command identity, 0 for a new one. *)
Definition start_count (s : pulse) (key : string) : Z :=
  if decide (key_eq key (current_command_id s)) then veto_count s else 0%Z.

(** An unsettled, non-rhythmic pre-check. *)
Definition restless (cfg : config) (s : pulse) (c : command) (now : Q) : Prop :=
  settled cfg s c now = false /\ _is_rhythmic_animation s = false.

Lemma on_pre_check_restless cfg s c now :
  restless cfg s c now ->
  let m := max_veto_count s in
  let v := start_count s (cmd_key c) in
  votes (snd (on_pre_check cfg s c now))
    = [if Z.leb m v then VClear else VWait] /\
  veto_count (fst (on_pre_check cfg s c now))
    = (if Z.leb m v then 0 else v + 1)%Z /\
  current_command_id (fst (on_pre_check cfg s c now)) = Some (cmd_key c) /\
  max_veto_count (fst (on_pre_check cfg s c now)) = m /\
  last_entropy_time (fst (on_pre_check cfg s c now)) = last_entropy_time s /\
  entropy_history (fst (on_pre_check cfg s c now)) = entropy_history s.
Proof.
  intros [Hs Hr]. unfold settled in Hs.
  destruct (Qle_bool (current_window cfg c) (now - last_entropy_time s))
    eqn:Hq; [discriminate |].
  unfold on_pre_check, start_count. cbv beta zeta.
  autorewrite with pulse.
  destruct (decide (key_eq (cmd_key c) (current_command_id s))) as [Hk | Hk];
    autorewrite with pulse; rewrite Hq, Hr; pulse_simpl;
    [destruct (Z.leb (max_veto_count s) (veto_count s)) |
     destruct (Z.leb (max_veto_count s) 0)];
    pulse_simpl; repeat split; first [reflexivity | symmetry; exact Hk].
Qed.

(** The [i]-th verdict of a command whose count starts at [c]. *)
Definition pat (m c : Z) (n : nat) : list verdict :=
  map (fun i => if Z.eqb ((c + Z.of_nat i) mod (m + 1)) m then VClear else VWait)
      (seq 0 n).

(** Each pre-check of a run is for command identity [k] and finds the
    environment neither settled nor rhythmic, judged on the sentinel's
    state when that pre-check arrives (after the entropy events before
    it). *)
Fixpoint restless_run (cfg : config) (k : string) (s : pulse)
  (es : list pulse_event) : Prop :=
  match es with
  | [] => True
  | PreCheck c now :: r =>
      cmd_key c = k /\ restless cfg s c now /\
      restless_run cfg k (fst (on_pre_check cfg s c now)) r
  | Entropy entropy now :: r => restless_run cfg k (on_entropy s entropy now) r
  end.

Fixpoint pre_check_count (es : list pulse_event) : nat :=
  match es with
  | [] => 0
  | PreCheck _ _ :: r => S (pre_check_count r)
  | Entropy _ _ :: r => pre_check_count r
  end.

Lemma pat_S m c n :
  (0 <= c <= m)%Z ->
  pat m c (S n)
  = (if Z.leb m c then VClear else VWait)
      :: pat m (if Z.leb m c then 0 else c + 1)%Z n.
Proof.
  intros Hc. unfold pat. cbn [seq]. rewrite <- (seq_shift n 0). cbn [map]. f_equal.
  - rewrite Z.add_0_r, Z.mod_small by lia.
    destruct (Z.eqb_spec c m), (Z.leb_spec m c); auto; lia.
  - rewrite map_map. apply map_ext. intros i.
    destruct (Z.leb_spec m c).
    + assert (c = m) by lia. subst c.
      replace (m + Z.of_nat (S i))%Z with (Z.of_nat i + 1 * (m + 1))%Z by lia.
      rewrite Z.mod_add by lia. rewrite Z.add_0_l. done.
    + replace (c + Z.of_nat (S i))%Z with (c + 1 + Z.of_nat i)%Z by lia. reflexivity.
Qed.

Lemma pat_lookup m c n t :
  (t < n)%nat ->
  pat m c n !! t
  = Some (if Z.eqb ((c + Z.of_nat t) mod (m + 1)) m then VClear else VWait).
Proof. intros Ht. unfold pat. rewrite list_lookup_fmap, lookup_seq_lt by exact Ht. reflexivity. Qed.

Lemma pat_lookup_none m c n t : (n <= t)%nat -> pat m c n !! t = None.
Proof. intros Ht. apply lookup_ge_None_2. unfold pat. rewrite length_map, length_seq. exact Ht. Qed.

Lemma on_entropy_count (s : pulse) (entropy : bool) (now : Q) :
  veto_count (on_entropy s entropy now) = veto_count s /\
  max_veto_count (on_entropy s entropy now) = max_veto_count s /\
  current_command_id (on_entropy s entropy now) = current_command_id s.
Proof. unfold on_entropy. destruct entropy; cbn; auto. Qed.

Lemma run_votes_restless cfg k (es : list pulse_event) : forall s,
  (0 <= start_count s k <= max_veto_count s)%Z ->
  restless_run cfg k s es ->
  run_votes cfg s es = pat (max_veto_count s) (start_count s k) (pre_check_count es).
Proof.
  induction es as [| [c now | entropy now] r IH]; intros s Hc Hrun; [reflexivity | |].
  - destruct Hrun as (Hkey & Hrest & Hr). subst k.
    pose proof (on_pre_check_restless _ _ _ _ Hrest)
      as (Hv & Hcnt & Hcur & Hmax & _ & _).
    cbn [run_votes pre_check_count]. rewrite Hv.
    rewrite (pat_S _ _ _ Hc). cbn [app]. f_equal.
    assert (Hs1 : start_count (fst (on_pre_check cfg s c now)) (cmd_key c)
                  = veto_count (fst (on_pre_check cfg s c now))).
    { unfold start_count. rewrite Hcur.
      destruct (decide (key_eq (cmd_key c) (Some (cmd_key c)))) as [|n];
        [done | exfalso; apply n; reflexivity]. }
    rewrite IH.
    + rewrite Hmax, Hs1, Hcnt. done.
    + rewrite Hs1, Hcnt, Hmax.
      destruct (Z.leb_spec (max_veto_count s) (start_count s (cmd_key c))); lia.
    + exact Hr.
  - cbn [run_votes pre_check_count restless_run] in *.
    destruct (on_entropy_count s entropy now) as (Hv & Hm & Hcur).
    assert (Hs : start_count (on_entropy s entropy now) k = start_count s k)
      by (unfold start_count; rewrite Hcur, Hv; reflexivity).
    rewrite IH; [rewrite Hm, Hs; reflexivity | rewrite Hm, Hs; exact Hc | exact Hrun].
Qed.

(** Among [m+1] consecutive verdicts of the pattern, the last one is a
    clear when the [m] before it are waits. *)
Lemma pat_clear_after_waits (m c : Z) (n i : nat) :
  (0 <= m)%Z ->
  (forall j, (j < Z.to_nat m)%nat -> pat m c n !! (i + j)%nat = Some VWait) ->
  pat m c n !! (i + Z.to_nat m)%nat = Some VClear
  \/ pat m c n !! (i + Z.to_nat m)%nat = None.
Proof.
  intros Hm Hw.
  destruct (decide (i + Z.to_nat m < n)%nat) as [Hlt | Hge];
    [left | right; apply pat_lookup_none; lia].
  rewrite pat_lookup by exact Hlt.
  pose proof (Z.mod_pos_bound (c + Z.of_nat i) (m + 1) ltac:(lia)) as Hr.
  pose proof (Z.div_mod (c + Z.of_nat i) (m + 1) ltac:(lia)) as Hd.
  set (r := ((c + Z.of_nat i) mod (m + 1))%Z) in *.
  set (q := ((c + Z.of_nat i) / (m + 1))%Z) in *.
  destruct (Z.eq_dec r 0%Z) as [H0 | H0].
  - assert (E : ((c + Z.of_nat (i + Z.to_nat m)) mod (m + 1))%Z = m)
      by (symmetry; apply (Z.mod_unique_pos _ _ q); lia).
    rewrite E, Z.eqb_refl. reflexivity.
  - exfalso. specialize (Hw (Z.to_nat (m - r)) ltac:(lia)).
    rewrite pat_lookup in Hw by lia.
    assert (E : ((c + Z.of_nat (i + Z.to_nat (m - r))) mod (m + 1))%Z = m)
      by (symmetry; apply (Z.mod_unique_pos _ _ q); lia).
    rewrite E, Z.eqb_refl in Hw. discriminate.
Qed.

(** C1: take any run of the Pulse Sentinel (pre-checks interleaved with
    any entropy events) from a state whose veto count lies between 0 and
    maxVetoCount, in which every pre-check is for the same command
    identity [k] and finds the environment neither settled nor rhythmic
    at its own time. Its verdicts follow the cap: the [i]-th is a clear
    exactly when [(v + i) mod (maxVetoCount+1) = maxVetoCount], where [v]
    is the count the run starts from (the stored count for [k], 0 for
    another identity). So no more than maxVetoCount waits come in a row,
    after maxVetoCount consecutive waits the next reply is a (force)
    clear, and when the count has already reached maxVetoCount the first
    reply is a clear. *)
Theorem pulse_veto_cap (cfg : config) (s : pulse) (k : string)
  (es : list pulse_event)
  (Hv : (0 <= veto_count s <= max_veto_count s)%Z)
  (Hrun : restless_run cfg k s es) :
  let m := max_veto_count s in
  let vs := run_votes cfg s es in
  vs = pat m (start_count s k) (pre_check_count es) /\
  (forall i, ~ (forall j, (j <= Z.to_nat m)%nat -> vs !! (i + j)%nat = Some VWait)) /\
  (forall i, (forall j, (j < Z.to_nat m)%nat -> vs !! (i + j)%nat = Some VWait) ->
     vs !! (i + Z.to_nat m)%nat = Some VClear \/ vs !! (i + Z.to_nat m)%nat = None) /\
  (start_count s k = m -> vs !! 0%nat = Some VClear \/ vs = []).
Proof.
  intros m vs.
  assert (Hc : (0 <= start_count s k <= m)%Z).
  { unfold start_count, m. destruct (decide _); lia. }
  assert (Hvs : vs = pat m (start_count s k) (pre_check_count es))
    by (apply run_votes_restless; assumption).
  assert (Hafter : forall i, (forall j, (j < Z.to_nat m)%nat -> vs !! (i + j)%nat = Some VWait) ->
     vs !! (i + Z.to_nat m)%nat = Some VClear \/ vs !! (i + Z.to_nat m)%nat = None).
  { intros i Hw. rewrite Hvs in *. apply pat_clear_after_waits; [lia | exact Hw]. }
  split; [exact Hvs |]. split; [| split; [exact Hafter |]].
  - intros i Hall.
    destruct (Hafter i (fun j Hj => Hall j ltac:(lia))) as [E | E];
      rewrite (Hall (Z.to_nat m) ltac:(lia)) in E; discriminate.
  - intros Hcm. rewrite Hvs, Hcm.
    destruct (pre_check_count es) as [| n] eqn:Hn; [right; reflexivity | left].
    rewrite pat_lookup by lia. rewrite Z.add_0_r, Z.mod_small by lia.
    rewrite Z.eqb_refl. reflexivity.
Qed.

Definition pulse0 : pulse := mkPulse IDLE 3 0 None 10 None 0 0 0.
Definition cfg0 : config := mkConfig (1 # 2).
Definition click_btn : command := mkCommand "click" "" "#btn" "" 0.

(** Five pre-checks of one click, with entropy events between them. *)
Definition busy_run : list pulse_event :=
  [PreCheck click_btn (10 + (1 # 10)); Entropy true (10 + (3 # 20));
   PreCheck click_btn (10 + (2 # 10)); PreCheck click_btn (10 + (3 # 10));
   Entropy true (10 + (7 # 20)); PreCheck click_btn (10 + (4 # 10));
   PreCheck click_btn (10 + (5 # 10))].

Lemma pulse_veto_cap_witness :
  (0 <= veto_count pulse0 <= max_veto_count pulse0)%Z /\
  restless_run cfg0 "#btn" pulse0 busy_run /\
  run_votes cfg0 pulse0 busy_run = [VWait; VWait; VWait; VClear; VWait] /\
  run_votes cfg0 pulse0 busy_run
    = pat (max_veto_count pulse0) (start_count pulse0 "#btn") (pre_check_count busy_run).
Proof.
  assert (Hv : (0 <= veto_count pulse0 <= max_veto_count pulse0)%Z) by (cbn; lia).
  assert (Hr : restless_run cfg0 "#btn" pulse0 busy_run).
  { unfold busy_run. cbn [restless_run]. repeat split; vm_compute; reflexivity. }
  split; [exact Hv |]. split; [exact Hr |]. split; [vm_compute; reflexivity |].
  exact (proj1 (pulse_veto_cap cfg0 pulse0 "#btn" busy_run Hv Hr)).
Defined.

Lemma on_pre_check_rhythmic cfg s c now :
  _is_rhythmic_animation s = true ->
  votes (snd (on_pre_check cfg s c now)) = [VClear].
Proof.
  intros Hr. unfold on_pre_check. cbv beta zeta. autorewrite with pulse.
  destruct (decide (key_eq (cmd_key c) (current_command_id s)));
    autorewrite with pulse; rewrite Hr;
    destruct (Qle_bool _ _); pulse_simpl; reflexivity.
Qed.

Lemma on_pre_check_settled cfg s c now :
  settled cfg s c now = true ->
  votes (snd (on_pre_check cfg s c now)) = [VClear].
Proof.
  unfold settled. intros Hs.
  destruct (Qle_bool (current_window cfg c) (now - last_entropy_time s))
    eqn:Hq; [| discriminate].
  unfold on_pre_check. cbv beta zeta. autorewrite with pulse.
  destruct (decide (key_eq (cmd_key c) (current_command_id s)));
    autorewrite with pulse; rewrite Hq; pulse_simpl; reflexivity.
Qed.

(** C2 (counterexample): four entropy events half a second apart have
    intervals of mean 0.5 s and variance 0, yet with 0.1 s of silence
    against a 0.5 s window the Pulse Sentinel answers [wait]: fewer than
    five recorded events never count as rhythmic. *)
Lemma rhythmic_short_history_waits :
  let h := [0; 1 # 2; 1; 3 # 2] in
  let s := mkPulse IDLE 3 0 None (3 # 2) (Some h) 0 0 0 in
  (1 # 10 < avg_interval h) /\ variance h == 0 /\
  votes (snd (on_pre_check cfg0 s click_btn ((3 # 2) + (1 # 10)))) = [VWait].
Proof. vm_compute. split; [reflexivity | split; reflexivity]. Qed.

(** C2 (amended): when the entropy history holds at least 5 timestamps
    (it keeps the last 10) and their inter-arrival intervals have mean
    above 0.1 s and variance below 0.005 s^2, the Pulse Sentinel answers
    the pre-check with [clear], whatever the silence duration. With
    fewer than 5 recorded timestamps (none at all included) the history
    is never rhythmic, however regular: the pre-check is answered
    [clear] exactly when the silence reaches the window or the veto count
    has reached the cap, as if there were no rhythm test. *)
Theorem rhythmic_history_clears (cfg : config) (s : pulse) (c : command) (now : Q) :
  (forall h, entropy_history s = Some h -> (5 <= length h)%nat ->
     1 # 10 < avg_interval h -> variance h < 5 # 1000 ->
     votes (snd (on_pre_check cfg s c now)) = [VClear]) /\
  ((length (history s) < 5)%nat ->
     _is_rhythmic_animation s = false /\
     (votes (snd (on_pre_check cfg s c now)) = [VClear]
      <-> settled cfg s c now = true
          \/ Z.leb (max_veto_count s) (start_count s (cmd_key c)) = true)).
Proof.
  split.
  - intros h Hh Hlen Hmean Hvar.
    apply on_pre_check_rhythmic. unfold _is_rhythmic_animation, is_rhythmic_history.
    rewrite Hh.
    destruct (Nat.ltb_spec (length h) 5); [lia |].
    destruct (Qlt_le_dec (avg_interval h) (1 # 10)) as [Hlt|];
      [exfalso; apply (Qlt_irrefl (1 # 10)); eapply Qlt_trans; eauto |].
    destruct (Qlt_le_dec (variance h) (5 # 1000)) as [|Hle];
      [reflexivity | exfalso; apply (Qlt_not_le _ _ Hvar Hle)].
  - intros Hlen.
    assert (Hr : _is_rhythmic_animation s = false).
    { unfold _is_rhythmic_animation, is_rhythmic_history. unfold history in Hlen.
      destruct (entropy_history s) as [h|]; [| reflexivity].
      destruct (Nat.ltb_spec (length h) 5); [reflexivity | lia]. }
    split; [exact Hr |].
    destruct (settled cfg s c now) eqn:Hs.
    + split; [intros _; left; reflexivity | intros _; apply on_pre_check_settled, Hs].
    + destruct (on_pre_check_restless cfg s c now (conj Hs Hr)) as [Hv _].
      rewrite Hv. destruct (Z.leb _ _); split; intros H;
        first [reflexivity | left; exact H | right; reflexivity
              | discriminate H | destruct H as [H | H]; discriminate H].
Qed.

Lemma rhythmic_history_clears_witness :
  let h := [0; 1 # 2; 1; 3 # 2; 2] in
  let s := mkPulse IDLE 3 0 None 2 (Some h) 0 0 0 in
  let s' := mkPulse IDLE 3 0 None (3 # 2) (Some [0; 1 # 2; 1; 3 # 2]) 0 0 0 in
  votes (snd (on_pre_check cfg0 s click_btn (2 + (1 # 100)))) = [VClear] /\
  _is_rhythmic_animation s' = false.
Proof.
  intros h s s'. split.
  - apply (proj1 (rhythmic_history_clears cfg0 s click_btn (2 + (1 # 100))) h);
      [reflexivity | simpl; lia | vm_compute; reflexivity | vm_compute; reflexivity].
  - apply (proj2 (rhythmic_history_clears cfg0 s' click_btn ((3 # 2) + (1 # 10)))).
    simpl; lia.
Defined.

(** The window of the spec sentence: clamp(hint, base, 2 s). *)
Definition spec_clamp_window (cfg : config) (c : command) : Q :=
  if Qlt_le_dec 0 (stabilityHint c)
  then pymax (settlementWindow cfg) (pymin 2 (stabilityHint c / 1000))
  else settlementWindow cfg.

(** C3 (counterexample): with base window 0.5 s and a 500 ms hint the
    clamp gives 0.5 s, but the Pulse Sentinel uses 0.6 s: after 0.55 s
    of silence on a new command it still answers [wait]. *)
Lemma dynamic_window_adds_tenth :
  let c := mkCommand "click" "" "#btn" "" 500 in
  let s := mkPulse IDLE 3 0 None 10 None 0 0 0 in
  spec_clamp_window cfg0 c == 1 # 2 /\
  current_window cfg0 c == 3 # 5 /\
  votes (snd (on_pre_check cfg0 s c (10 + (11 # 20)))) = [VWait].
Proof. vm_compute. split; [reflexivity | split; reflexivity]. Qed.

(** C3 (amended): for a pre-check of a new command on a sentinel whose
    entropy history is not rhythmic (and a cap above 0), the Pulse
    Sentinel answers [clear] exactly when the silence reaches the
    window max(settlementWindow, min(2 s, hint/1000 + 0.1 s)) for a
    positive hint (in ms), and settlementWindow itself otherwise. *)
Theorem effective_window (cfg : config) (s : pulse) (c : command) (now : Q)
  (Hr : _is_rhythmic_animation s = false)
  (Hnew : current_command_id s <> Some (cmd_key c))
  (Hmax : (0 < max_veto_count s)%Z) :
  let window :=
    if Qlt_le_dec 0 (stabilityHint c)
    then pymax (settlementWindow cfg)
           (pymin 2 (stabilityHint c / 1000 + (1 # 10)))
    else settlementWindow cfg in
  votes (snd (on_pre_check cfg s c now)) = [VClear]
  <-> window <= now - last_entropy_time s.
Proof.
  intros window.
  assert (Hw : window = current_window cfg c) by reflexivity.
  rewrite Hw. clear Hw window.
  destruct (settled cfg s c now) eqn:Hq.
  - pose proof Hq as Hq'. unfold settled in Hq'.
    destruct (Qle_bool (current_window cfg c) (now - last_entropy_time s))
      eqn:E; [| discriminate].
    apply Qle_bool_imp_le in E.
    split; [intros _; exact E | intros _; apply on_pre_check_settled, Hq].
  - split.
    + intros Hv.
      pose proof (on_pre_check_restless cfg s c now (conj Hq Hr)) as [Hv' _].
      rewrite Hv' in Hv. unfold start_count in Hv.
      destruct (decide (key_eq (cmd_key c) (current_command_id s)));
        [exfalso; apply Hnew; symmetry; assumption |].
      destruct (Z.leb_spec (max_veto_count s) 0); [lia | discriminate].
    + intros Hle. apply Qle_bool_iff in Hle. unfold settled in Hq.
      rewrite Hle in Hq. discriminate.
Qed.

Lemma effective_window_witness :
  let c := mkCommand "click" "" "#btn" "" 500 in
  _is_rhythmic_animation pulse0 = false /\
  current_command_id pulse0 <> Some (cmd_key c) /\
  (0 < max_veto_count pulse0)%Z /\
  (votes (snd (on_pre_check cfg0 pulse0 c (10 + (3 # 5)))) = [VClear]
   <-> (3 # 5) <= 10 + (3 # 5) - last_entropy_time pulse0).
Proof.
  intros c.
  split; [reflexivity |]. split; [discriminate |].
  split; [vm_compute; reflexivity |].
  exact (effective_window cfg0 pulse0 c (10 + (3 # 5))
           eq_refl ltac:(discriminate) ltac:(vm_compute; reflexivity)).
Defined.

End PulseFacts.

(* ------------------------------------------------------------------ *)
(** ** Facts about the PII Sentinel *)

Module PiiFacts.
Import Pii Hub.

Lemma substring_length (n m : nat) (s : string) :
  String.length (String.substring n m s) = Nat.min m (String.length s - n).
Proof.
  revert n m. induction s as [|c s IH]; intros [|n] [|m];
    cbn [String.substring String.length]; rewrite ?IH; lia.
Qed.

Lemma stars_length (n : nat) : String.length (stars n) = n.
Proof. induction n as [|n IH]; cbn [stars String.length]; [reflexivity | f_equal; exact IH]. Qed.

Lemma string_append_length (a b : string) :
  String.length (a ++ b) = (String.length a + String.length b)%nat.
Proof. induction a as [|c a IH]; simpl; [reflexivity | f_equal; exact IH]. Qed.

(** The mask of a value has length [max 4 (len value)]. *)
Lemma redact_length (v : string) :
  String.length (_redact v) = Nat.max 4 (String.length v).
Proof.
  unfold _redact.
  destruct (Nat.leb_spec (String.length v) 4) as [Hle|Hgt].
  - cbn. lia.
  - rewrite !string_append_length, stars_length, !substring_length. lia.
Qed.

(** The scan in block mode, once there is text and a finding: the
    messages sent to the Hub. *)
Lemma on_pre_check_block_found (pats : patterns) (page_text : string)
  (blocking_texts : list string) :
  nonblank (all_text page_text blocking_texts) = true ->
  scan_for_pii pats (all_text page_text blocking_texts) <> [] ->
  exists reason,
    on_pre_check "block" pats page_text blocking_texts
    = [SHijack reason; SContext "security"; SResume false].
Proof.
  intros Htext Hfind. unfold on_pre_check. cbv zeta. rewrite Htext.
  destruct (scan_for_pii pats (all_text page_text blocking_texts)) as [|f fs].
  - congruence.
  - eexists. reflexivity.
Qed.

(** A pre-check whose text holds "123-45-6789", with the default
    "ssn" pattern. *)
Definition ssn_patterns : patterns := [("ssn", ssn_findall)].
Definition ssn_page : string := "Customer SSN: 123-45-6789".

(** A user-supplied pattern that matches three digits. *)
Definition pin_patterns : patterns := [("pin", pin_findall)].

(** C4 (code_bug): in block mode, a pre-check whose text contains a
    PII match gets exactly one vote from the PII Sentinel, a hijack (so
    never a clear); but the Sentinel then sends
    [starlight.resume(re_check=False)], which releases the hijack and
    moves the command to DISPATCHED instead of aborting it. *)
Theorem pii_block_resume_dispatches (pats : patterns) (page_text : string)
  (blocking_texts : list string)
  (Htext : nonblank (all_text page_text blocking_texts) = true)
  (Hfind : scan_for_pii pats (all_text page_text blocking_texts) <> []) :
  votes (on_pre_check "block" pats page_text blocking_texts) = [VHijack]
  /\ hub_run (on_pre_check "block" pats page_text blocking_texts) = DISPATCHED.
Proof.
  destruct (on_pre_check_block_found pats page_text blocking_texts Htext Hfind)
    as [reason ->].
  split; reflexivity.
Qed.

Lemma pii_block_resume_dispatches_witness :
  nonblank (all_text ssn_page []) = true
  /\ scan_for_pii ssn_patterns (all_text ssn_page []) <> []
  /\ votes (on_pre_check "block" ssn_patterns ssn_page []) = [VHijack]
  /\ hub_run (on_pre_check "block" ssn_patterns ssn_page []) = DISPATCHED.
Proof.
  assert (Ht : nonblank (all_text ssn_page []) = true) by reflexivity.
  assert (Hf : scan_for_pii ssn_patterns (all_text ssn_page []) <> [])
    by (intro H; vm_compute in H; discriminate H).
  split; [exact Ht|]. split; [exact Hf|].
  exact (pii_block_resume_dispatches ssn_patterns ssn_page [] Ht Hf).
Defined.

(** C5 (counterexample): with a user-supplied pattern matching three
    digits, the text "PIN 123" yields a finding of raw length 3 whose
    recorded mask "****" has length 4. *)
Lemma redact_short_match_grows :
  exists f, In f (scan_for_pii pin_patterns "PIN 123")
            /\ String.length (fvalue f) <> raw_length f.
Proof.
  assert (E : scan_for_pii pin_patterns "PIN 123" = [mkFinding "pin" "****" 3])
    by reflexivity.
  rewrite E. exists (mkFinding "pin" "****" 3).
  split; [left; reflexivity | cbn; lia].
Qed.

Lemma length_string_of_list_ascii (l : list Ascii.ascii) :
  String.length (String.string_of_list_ascii l) = length l.
Proof. induction l as [|c l IH]; cbn; [reflexivity | f_equal; exact IH]. Qed.

Lemma match_shape_length shape : forall l m rest,
  match_shape shape l = Some (m, rest) -> length m = length shape.
Proof.
  induction shape as [|p shape IH]; intros [|c l] m rest H; cbn in H.
  - injection H as <- _. reflexivity.
  - injection H as <- _. reflexivity.
  - discriminate.
  - destruct (p c); [| discriminate].
    destruct (match_shape shape l) as [[m' rest']|] eqn:E; [| discriminate].
    injection H as <- _. cbn. f_equal. exact (IH _ _ _ E).
Qed.

(** Every string a [\b<shape>\b] scan returns has the shape's length. *)
Lemma scan_shape_length shape (l : list Ascii.ascii) : forall prev skip,
  Forall (fun x => String.length x = length shape) (scan_shape shape prev skip l).
Proof.
  induction l as [|c r IH]; intros prev skip; cbn; [constructor |].
  destruct skip as [|k]; [| apply IH].
  destruct (match_shape shape (c :: r)) as [[m rest]|] eqn:E; [| apply IH].
  destruct (boundary prev (Some c) && boundary (last m) (head rest)); [| apply IH].
  constructor; [| apply IH].
  rewrite length_string_of_list_ascii. exact (match_shape_length _ _ _ _ E).
Qed.

(** C5 (amended): every finding's recorded mask has length
    [max(4, raw_length)]: the mask is length-preserving for matches of
    at least 4 characters, and a match of at most 4 characters is
    recorded as the literal "****". Every match of the default ssn
    pattern [\b\d{3}-\d{2}-\d{4}\b] has 11 characters, so its mask
    keeps its length. *)
Theorem redact_mask_length (pats : patterns) (text : string) :
  Forall (fun f => String.length (fvalue f) = Nat.max 4 (raw_length f))
         (scan_for_pii pats text) /\
  Forall (fun f => (raw_length f <= 4)%nat -> fvalue f = "****")
         (scan_for_pii pats text) /\
  Forall (fun m => String.length m = 11%nat) (ssn_findall text).
Proof.
  split; [| split].
  - induction pats as [|[pii_type findall] pats IH]; cbn; [constructor|].
    apply Forall_app. split; [|exact IH].
    apply Forall_forall. intros f Hf.
    apply list_elem_of_In, in_map_iff in Hf as (m & <- & _). cbn.
    apply redact_length.
  - induction pats as [|[pii_type findall] pats IH]; cbn; [constructor|].
    apply Forall_app. split; [|exact IH].
    apply Forall_forall. intros f Hf.
    apply list_elem_of_In, in_map_iff in Hf as (m & <- & _). cbn. intros Hle.
    unfold _redact. destruct (Nat.leb_spec (String.length m) 4); [reflexivity | lia].
  - unfold ssn_findall, findall_shape.
    match goal with |- Forall _ (scan_shape ?sh _ _ _) => apply (scan_shape_length sh) end.
Qed.

End PiiFacts.

(* ------------------------------------------------------------------ *)
(** ** Facts about the persistent memory file *)

Module MemoryFacts.
Import Py Memory.

(** A memory file that does not parse, and a serializer that writes
    the empty object in two chunks. *)
Definition dump_empty (v : pyval) : list string * bool := (["{"; "}"], true).
Definition loads_empty (s : string) : option pyval :=
  if String.eqb s "{}" then Some (PDict []) else None.
Definition fs_corrupt : fs := {[ "JanitorSentinel_memory.json" := "{oops" ]}.

(** C6 (code_bug): [_save_memory] is atomic only as long as
    [shutil.move] renames. Without the copy fallback every state it
    passes through leaves the memory file as it was, and at the end the
    file holds the new serialization exactly when [mkstemp],
    [json.dump] and the rename succeeded, and is unchanged otherwise.
    But when [os.rename] raises and [shutil.move] falls back to [copy2],
    the memory file goes through the empty text (the destination is
    truncated before the copy), and a copy that raises after [k] blocks
    leaves the file cut after [k] blocks, neither the old text nor the
    new one. Whenever the final [os.unlink] succeeds the temporary file
    is gone. [_load_memory] called with [self.memory = {}] (its value
    from [__init__]) on a file that is not JSON leaves
    [self.memory = {}], returning normally. *)
Theorem memory_save_not_atomic (json_dump : pyval -> list string * bool)
  (json_loads : string -> option pyval) (memory : pyval) (fs0 : fs)
  (memory_file : string) (tmp : option string) (mv : move_run) (unlink_ok : bool)
  (Htmp : tmp <> Some memory_file) :
  let run := _save_memory json_dump memory fs0 memory_file tmp mv unlink_ok in
  let content := String.concat "" (fst (json_dump memory)) in
  ((forall b f, mv <> Copied b f) ->
     Forall (fun st : fs => st !! memory_file = fs0 !! memory_file) (fst run)
     /\ snd run !! memory_file
        = (if bool_decide (is_Some tmp) && snd (json_dump memory)
              && match mv with Renamed => true | _ => false end
           then Some content else fs0 !! memory_file))
  /\ (forall b f, mv = Copied b f -> is_Some tmp -> snd (json_dump memory) = true ->
        (exists st, In st (fst run) /\ st !! memory_file = Some "")
        /\ snd run !! memory_file
           = Some (match f with
                   | None => content
                   | Some k => String.substring 0 (Nat.min k (copy_blocks content (Pos.to_nat b))
                                            * Pos.to_nat b) content
                   end))
  /\ (forall temp_path, tmp = Some temp_path -> fs0 !! temp_path = None ->
        unlink_ok = true -> snd run !! temp_path = None)
  /\ (forall text open_ok, fs0 !! memory_file = Some text ->
        json_loads text = None ->
        _load_memory json_loads (PDict []) fs0 memory_file open_ok = PDict []).
Proof.
  cbv zeta. split; [|split; [|split]].
  - intros Hnc. unfold _save_memory. destruct tmp as [t|]; [|split; [constructor | reflexivity]].
    assert (t <> memory_file) by congruence.
    rewrite bool_decide_true by eauto.
    destruct (json_dump memory) as [chunks dump_ok]. cbn [fst snd andb].
    destruct dump_ok; [destruct mv as [| | b f]; [| | exfalso; exact (Hnc b f eq_refl)]|];
      cbn [fst snd]; (split;
      [ apply List.Forall_forall; intros st Hst;
        apply in_map_iff in Hst as (n & <- & _); cbv beta;
        rewrite lookup_insert_ne by congruence; reflexivity
      | destruct unlink_ok; cbn;
        rewrite ?lookup_insert_eq, ?lookup_delete_ne, ?lookup_insert_ne
          by congruence; reflexivity ]).
  - intros b f -> [t ->] Hd. unfold _save_memory.
    assert (t <> memory_file) by congruence.
    destruct (json_dump memory) as [chunks dump_ok]. cbn [fst snd] in *. subst dump_ok.
    destruct f as [k|]; cbn [fst snd]; split.
    + exists (<[memory_file := String.substring 0 (0 * Pos.to_nat b) (String.concat "" chunks)]>
                (<[t := String.concat "" (take (length chunks) chunks)]> fs0)).
      split; [| rewrite lookup_insert_eq; destruct (String.concat "" chunks); reflexivity].
      apply in_or_app. right. apply in_map_iff. exists 0%nat.
      split; [reflexivity | apply in_seq; lia].
    + destruct unlink_ok; cbn; rewrite ?lookup_delete_ne by congruence;
        apply lookup_insert_eq.
    + exists (<[memory_file := String.substring 0 (0 * Pos.to_nat b) (String.concat "" chunks)]>
                (<[t := String.concat "" (take (length chunks) chunks)]> fs0)).
      split; [| rewrite lookup_insert_eq; destruct (String.concat "" chunks); reflexivity].
      apply in_or_app. right. apply in_map_iff. exists 0%nat.
      split; [reflexivity | apply in_seq; lia].
    + destruct unlink_ok; cbn; rewrite ?lookup_delete_ne by congruence;
        apply lookup_insert_eq.
  - intros t -> Hfresh ->. unfold _save_memory.
    assert (t <> memory_file) by congruence.
    destruct (json_dump memory) as [chunks dump_ok]. cbn [fst snd].
    destruct dump_ok; [destruct mv as [| | b [k|]]|]; cbn;
      rewrite ?lookup_insert_ne by congruence; apply lookup_delete_eq.
  - intros text open_ok Hc Hj. unfold _load_memory. rewrite Hc.
    destruct open_ok; [rewrite Hj|]; reflexivity.
Qed.

Lemma memory_save_not_atomic_witness :
  (Some "tmpk3j9_x2.json" <> Some "JanitorSentinel_memory.json")
  /\ (exists st, In st (fst (_save_memory dump_empty (PDict []) fs_corrupt
                          "JanitorSentinel_memory.json" (Some "tmpk3j9_x2.json")
                          (Copied 1024 (Some 0%nat)) true))
                 /\ st !! "JanitorSentinel_memory.json" = Some "")
  /\ snd (_save_memory dump_empty (PDict []) fs_corrupt "JanitorSentinel_memory.json"
            (Some "tmpk3j9_x2.json") (Copied 1024 (Some 0%nat)) true)
     = {[ "JanitorSentinel_memory.json" := "" ]}.
Proof.
  assert (Hneq : Some "tmpk3j9_x2.json" <> Some "JanitorSentinel_memory.json")
    by discriminate.
  destruct (memory_save_not_atomic dump_empty loads_empty (PDict []) fs_corrupt
              "JanitorSentinel_memory.json" (Some "tmpk3j9_x2.json")
              (Copied 1024 (Some 0%nat)) true Hneq) as (_ & Hcopy & _ & _).
  destruct (Hcopy 1024%positive (Some 0%nat) eq_refl ltac:(eexists; reflexivity) eq_refl)
    as [Hempty _].
  split; [exact Hneq | split; [exact Hempty |]].
  vm_compute. reflexivity.
Defined.

End MemoryFacts.

(* ------------------------------------------------------------------ *)
(** ** Facts about the Janitor's learned memory *)

Module JanitorFacts.
Import Py Janitor JanitorPre JanitorRuns.

(** [last_action] is absent or a predictive ("known") action. *)
Definition la_ok (a : option last_action_t) : Prop :=
  match a with None => True | Some la => la_known la = true end.

Lemma on_message_keeps_memory (s : janitor) (method : string) (params : pyval) :
  la_ok (last_action s) ->
  memory (on_message s method params) = memory s
  /\ la_ok (last_action (on_message s method params)).
Proof.
  intros Hla. unfold on_message.
  destruct (String.eqb method "starlight.shutdown"); [split; [reflexivity|exact Hla]|].
  destruct params as [| | | | |kvs|]; try (split; [reflexivity|exact Hla]).
  destruct (assoc_get kvs "type" PNone) as [| | |m_type| | |];
    try (split; [reflexivity|exact Hla]).
  destruct (String.eqb m_type "COMMAND_COMPLETE"); [|split; [reflexivity|exact Hla]].
  cbv zeta.
  remember (if is_hijacking (state s) && truthy (assoc_get kvs "success" (PBool false))
            then set_recovery_successful true s else s) as s1 eqn:Es1.
  assert (Hm1 : memory s1 = memory s)
    by (subst s1; destruct (_ && _); reflexivity).
  assert (Hl1 : last_action s1 = last_action s)
    by (subst s1; destruct (_ && _); reflexivity).
  rewrite Hl1. destruct (last_action s) as [la|] eqn:E.
  - cbn in Hla. rewrite Hla.
    destruct (truthy (assoc_get kvs "success" (PBool true)));
      split; [exact Hm1|exact I|exact Hm1|exact I].
  - split; [exact Hm1|]. rewrite Hl1. exact I.
Qed.

Lemma begin_remediation_keeps (w : world) (o : string) :
  memory (jan (begin_remediation w o)) = memory (jan w)
  /\ last_action (jan (begin_remediation w o)) = last_action (jan w).
Proof.
  unfold begin_remediation, remediation_begin.
  destruct (is_hijacking (state (jan w))); split; reflexivity.
Qed.

Lemma on_pre_check_keeps (s : pre) (goal target_rect : pyval) (blocking : list element) :
  memory (jan (pw (fst (on_pre_check s goal target_rect blocking)))) = memory (jan (pw s))
  /\ last_action (jan (pw (fst (on_pre_check s goal target_rect blocking))))
     = last_action (jan (pw s)).
Proof.
  unfold on_pre_check, remediate.
  repeat match goal with
         | |- context [if ?b then _ else _] => destruct b
         | |- context [match ?x with Some _ => _ | None => _ end] => destruct x
         end; cbn [fst pw];
  first [ apply begin_remediation_keeps | split; reflexivity ].
Qed.

Lemma step_keeps_memory (s : pre) (e : event) :
  la_ok (last_action (jan (pw s))) ->
  memory (jan (pw (step s e))) = memory (jan (pw s))
  /\ la_ok (last_action (jan (pw (step s e)))).
Proof.
  intros Hla. destruct e as [goal target_rect blocking invariants|i| | |method params];
    cbn [step].
  - destruct (on_pre_check_keeps s goal target_rect blocking) as [Hm Hl].
    destruct (on_pre_check s goal target_rect blocking) as [s' o] eqn:E.
    cbn [fst] in Hm, Hl.
    assert (Hs' : memory (jan (pw s')) = memory (jan (pw s))
                  /\ la_ok (last_action (jan (pw s')))) by (rewrite Hl; auto).
    destruct o, invariants; exact Hs'.
  - unfold end_remediation. cbn [pw].
    destruct (pending (pw s) !! i) as [[obstacle_id best_action]|];
      [|split; [reflexivity|exact Hla]].
    cbn. split; [reflexivity|]. destruct best_action; cbn; [reflexivity|exact I].
  - split; [reflexivity | exact Hla].
  - split; [reflexivity | exact Hla].
  - cbn [pw jan]. apply on_message_keeps_memory. exact Hla.
Qed.

Lemma run_keeps_memory (s : pre) (es : list event) :
  la_ok (last_action (jan (pw s))) ->
  memory (jan (pw (run s es))) = memory (jan (pw s))
  /\ la_ok (last_action (jan (pw (run s es)))).
Proof.
  unfold run. revert s. induction es as [|e es IH]; intros s Hla; cbn [fold_left].
  - split; [reflexivity|exact Hla].
  - destruct (step_keeps_memory s e Hla) as [Hm Hl].
    destruct (IH (step s e) Hl) as [Hm' Hl']. split; [congruence|exact Hl'].
Qed.

(** A heuristic remediation of "#cookie-banner", unknown to the memory,
    followed by a successful COMMAND_COMPLETE. *)
Definition complete_ok : pyval :=
  PDict [("type", PStr "COMMAND_COMPLETE"); ("success", PBool true)].
Definition cookie_banner : element :=
  mkElement "cookie-banner" "" (Some "#cookie-banner") "DIV" None.
Definition unknown_then_success : list event :=
  [PreCheck PNone PNone [cookie_banner] []; Finish 0; Resumed; Idle;
   Message "starlight.message" complete_ok].

Example unknown_then_success_learns_nothing :
  memory (jan (pw (run (start ∅) unknown_then_success))) = ∅.
Proof. reflexivity. Qed.

(** C8 (counterexample): no run of the Janitor, started with any loaded
    memory, ever adds or changes an entry of its learned map; in
    particular a successful remediation of an obstacle with no known
    selector (the heuristic branch) adds nothing. *)
Lemma janitor_never_adds_entry :
  ~ exists (mem : gmap string string) (es : list event) (obstacle_id sel : string),
      memory (jan (pw (run (start mem) es))) !! obstacle_id = Some sel
      /\ mem !! obstacle_id <> Some sel.
Proof.
  intros (mem & es & obstacle_id & sel & Hnew & Hold).
  destruct (run_keeps_memory (start mem) es I) as [Hm _].
  rewrite Hm in Hnew. exact (Hold Hnew).
Qed.

(** C8 (amended): the Janitor's learned map never changes at run time:
    from the state after start (any loaded memory, no last action), for
    every interleaving of pre-checks (with the remediations and site
    recoveries they start, overlapping ones included), the later steps
    of those handlers, and messages, the map equals the loaded one.
    [last_action] only ever holds a predictive action ([known = True])
    or nothing, so the learning branch of [on_message] is never taken;
    a remediation found by the heuristic branch is not stored. *)
Theorem janitor_memory_never_learns (mem : gmap string string) (es : list event) :
  memory (jan (pw (run (start mem) es))) = mem
  /\ la_ok (last_action (jan (pw (run (start mem) es)))).
Proof. exact (run_keeps_memory (start mem) es I). Qed.

End JanitorFacts.

(* ------------------------------------------------------------------ *)
(** ** More facts about the Pulse Sentinel *)

Module PulseMore.
Local Open Scope Q_scope.
Import Pulse PulseFacts PulseRuns.

Lemma tail_drop1 {A} (l : list A) : tail l = drop 1 l.
Proof. destruct l; reflexivity. Qed.

Lemma lastn_app_lastn {A} (k : nat) (a b : list A) :
  lastn k (lastn k a ++ b) = lastn k (a ++ b).
Proof.
  unfold lastn.
  rewrite <- (drop_app_le a b (length a - k)) by lia.
  rewrite drop_drop, !length_drop, !length_app. f_equal. lia.
Qed.

Lemma length_lastn {A} (k : nat) (l : list A) : (length (lastn k l) <= k)%nat.
Proof. unfold lastn. rewrite length_drop. lia. Qed.

Lemma on_entropy_history (s : pulse) (now : Q) :
  (length (history s) <= 10)%nat ->
  history (on_entropy s true now) = lastn 10 (history s ++ [now])
  /\ last_entropy_time (on_entropy s true now) = now.
Proof.
  intros Hl. unfold on_entropy, history in *.
  destruct (entropy_history s) as [h|]; cbn [set_state set_entropy
    entropy_history last_entropy_time].
  - split; [|reflexivity]. unfold lastn. rewrite !length_app. cbn [length].
    destruct (Nat.ltb_spec 10 (length h + 1)) as [Hlt|Hge].
    + rewrite tail_drop1. f_equal. lia.
    + replace (length h + 1 - 10)%nat with 0%nat by lia. reflexivity.
  - split; reflexivity.
Qed.

(** X: after any sequence of entropy events the Pulse Sentinel's
    history holds exactly the last 10 event times, oldest first, and
    the time of the last entropy event is the last of them. *)
Theorem entropy_history_last_ten (cfg : config) (s : pulse) (ts : list Q)
  (Hs : (length (history s) <= 10)%nat) :
  history (run_pulse cfg s (map (Entropy true) ts)) = lastn 10 (history s ++ ts)
  /\ (forall t, last ts = Some t ->
        last_entropy_time (run_pulse cfg s (map (Entropy true) ts)) = t).
Proof.
  unfold run_pulse. revert s Hs.
  induction ts as [|t ts IH]; intros s Hs; cbn [map fold_left].
  - split; [|discriminate]. unfold lastn. rewrite app_nil_r.
    replace (length (history s) - 10)%nat with 0%nat by lia. reflexivity.
  - cbn [pulse_step]. destruct (on_entropy_history s t Hs) as [Hh Ht].
    assert (Hs' : (length (history (on_entropy s true t)) <= 10)%nat)
      by (rewrite Hh; apply length_lastn).
    destruct (IH _ Hs') as [IHh IHt]. split.
    + rewrite IHh, Hh, lastn_app_lastn, <- app_assoc. reflexivity.
    + intros t' Hlast. destruct ts as [|t0 ts'].
      * cbn in Hlast |- *. injection Hlast as <-. exact Ht.
      * apply IHt. rewrite <- Hlast. reflexivity.
Qed.

Lemma entropy_history_last_ten_witness :
  (length (history pulse0) <= 10)%nat /\
  history (run_pulse cfg0 pulse0 (map (Entropy true) (map inject_Z (seqZ 0 12))))
    = map inject_Z (seqZ 2 10).
Proof.
  assert (H : (length (history pulse0) <= 10)%nat) by (cbn; lia).
  split; [exact H|].
  rewrite (proj1 (entropy_history_last_ten cfg0 pulse0 _ H)). reflexivity.
Defined.

(** The three ways a pre-check ends: settled or rhythmic (clear),
    cap reached (force clear), or a veto (wait). *)
Lemma on_pre_check_shape (cfg : config) (s : pulse) (c : command) (now : Q) :
  let v := start_count s (cmd_key c) in
  let calm := settled cfg s c now || _is_rhythmic_animation s in
  max_veto_count (fst (on_pre_check cfg s c now)) = max_veto_count s /\
  entropy_history (fst (on_pre_check cfg s c now)) = entropy_history s /\
  last_entropy_time (fst (on_pre_check cfg s c now)) = last_entropy_time s /\
  current_command_id (fst (on_pre_check cfg s c now)) = Some (cmd_key c) /\
  ((calm = true /\
    snd (on_pre_check cfg s c now)
      = [SContext "pulse_telemetry"; SContext "pulse_telemetry"; SClear] /\
    veto_count (fst (on_pre_check cfg s c now)) = 0%Z /\
    state (fst (on_pre_check cfg s c now)) = CLEARED)
   \/ (calm = false /\ Z.leb (max_veto_count s) v = true /\
    snd (on_pre_check cfg s c now) = [SContext "pulse_telemetry"; SClear] /\
    veto_count (fst (on_pre_check cfg s c now)) = 0%Z /\
    state (fst (on_pre_check cfg s c now)) = CLEARED)
   \/ (calm = false /\ Z.leb (max_veto_count s) v = false /\
    snd (on_pre_check cfg s c now)
      = [SContext "pulse_telemetry"; SContext "pulse_telemetry";
         SWait (py_int (pymax (1 # 5)
                  (current_window cfg c - (now - last_entropy_time s)) * 1000))] /\
    veto_count (fst (on_pre_check cfg s c now)) = (v + 1)%Z /\
    state (fst (on_pre_check cfg s c now)) = VETOING)).
Proof.
  unfold on_pre_check, start_count, settled. cbv beta zeta.
  autorewrite with pulse.
  destruct (decide (key_eq (cmd_key c) (current_command_id s))) as [Hk | Hk];
    autorewrite with pulse;
    destruct (Qle_bool (current_window cfg c) (now - last_entropy_time s)) eqn:Hq;
    destruct (_is_rhythmic_animation s) eqn:Hr; pulse_simpl;
    try (match goal with
         | |- context [Z.leb (max_veto_count s) ?b] =>
             destruct (Z.leb (max_veto_count s) b) eqn:Hm
         end);
    pulse_simpl;
    (split; [reflexivity|]); (split; [reflexivity|]); (split; [reflexivity|]);
    (split; [first [reflexivity | symmetry; exact Hk]|]);
    first [ left; repeat split; reflexivity
          | right; left; repeat split; first [reflexivity | exact Hm]
          | right; right; repeat split; first [reflexivity | exact Hm] ].
Qed.

Lemma pymax_ge_l (a b : Q) : a <= pymax a b.
Proof. unfold pymax. destruct (Qlt_le_dec a b); lra. Qed.

Lemma pymax_ge_r (a b : Q) : b <= pymax a b.
Proof. unfold pymax. destruct (Qlt_le_dec a b); lra. Qed.

(** [int(x * 1000)] is at least [n] when [x * 1000] is. *)
Lemma py_int_ge (n : Z) (x : Q) : inject_Z n <= x -> (n <= py_int x)%Z.
Proof.
  intros H. unfold py_int. rewrite <- (Qfloor_Z n). apply Qfloor_resp_le. exact H.
Qed.

(** X: every pre-check gets exactly one vote from the Pulse Sentinel,
    a clear or a wait (never a hijack); after a clear its state is
    CLEARED, after a wait VETOING. *)
Theorem pre_check_one_vote (cfg : config) (s : pulse) (c : command) (now : Q) :
  (votes (snd (on_pre_check cfg s c now)) = [VClear]
   /\ state (fst (on_pre_check cfg s c now)) = CLEARED)
  \/ (votes (snd (on_pre_check cfg s c now)) = [VWait]
      /\ state (fst (on_pre_check cfg s c now)) = VETOING).
Proof.
  pose proof (on_pre_check_shape cfg s c now) as H. cbv zeta in H.
  destruct H as (_ & _ & _ & _ & [(_ & Ho & _ & Hs) | [(_ & _ & Ho & _ & Hs)
                                   | (_ & _ & Ho & _ & Hs)]]);
    rewrite Ho; [left | left | right]; split; first [reflexivity | exact Hs].
Qed.

(** X: a wait from the Pulse Sentinel asks for a retry after at least
    200 ms, and after at least the time left until the silence reaches
    the settlement window (in whole ms, rounded down). *)
Theorem pre_check_wait_bounds (cfg : config) (s : pulse) (c : command) (now : Q)
  (ms : Z) (Hw : In (SWait ms) (snd (on_pre_check cfg s c now))) :
  (200 <= ms)%Z /\
  (py_int ((current_window cfg c - (now - last_entropy_time s)) * 1000) <= ms)%Z.
Proof.
  pose proof (on_pre_check_shape cfg s c now) as H. cbv zeta in H.
  destruct H as (_ & _ & _ & _ & [(_ & Ho & _ & _) | [(_ & _ & Ho & _ & _)
                                   | (_ & _ & Ho & _ & _)]]);
    rewrite Ho in Hw; cbn [In] in Hw;
    repeat match goal with
           | Hx : _ \/ _ |- _ => destruct Hx as [Hx | Hx]
           end;
    try discriminate; try contradiction.
  match type of Hw with
  | SWait ?x = SWait ms => assert (E : ms = x) by congruence
  end.
  subst ms. clear Hw. split.
  - apply py_int_ge.
    pose proof (pymax_ge_l (1 # 5) (current_window cfg c - (now - last_entropy_time s))).
    change (inject_Z 200) with (200 # 1). lra.
  - unfold py_int. apply Qfloor_resp_le.
    pose proof (pymax_ge_r (1 # 5) (current_window cfg c - (now - last_entropy_time s))).
    lra.
Qed.

Lemma pre_check_wait_bounds_witness :
  let c := mkCommand "click" "" "#btn" "" 500 in
  In (SWait 200) (snd (on_pre_check cfg0 pulse0 c (10 + (11 # 20)))) /\
  (200 <= 200)%Z /\
  (py_int ((current_window cfg0 c - (10 + (11 # 20) - last_entropy_time pulse0)) * 1000)
     <= 200)%Z.
Proof.
  intros c.
  assert (Hin : In (SWait 200) (snd (on_pre_check cfg0 pulse0 c (10 + (11 # 20)))))
    by (vm_compute; right; right; left; reflexivity).
  split; [exact Hin|].
  exact (pre_check_wait_bounds cfg0 pulse0 c (10 + (11 # 20)) 200 Hin).
Defined.

(** The veto count lies between 0 and the cap (0 when the cap is
    negative). *)
Definition veto_ok (s : pulse) : Prop :=
  (0 <= veto_count s <= Z.max 0 (max_veto_count s))%Z.

Lemma pulse_step_veto_ok (cfg : config) (s : pulse) (e : pulse_event) :
  veto_ok s -> veto_ok (pulse_step cfg s e).
Proof.
  unfold veto_ok. intros Hv. destruct e as [c now | entropy now]; cbn [pulse_step].
  - pose proof (on_pre_check_shape cfg s c now) as H. cbv zeta in H.
    destruct H as (Hm & _ & _ & _ & [(_ & _ & Hc & _) | [(_ & _ & _ & Hc & _)
                                     | (_ & Hle & _ & Hc & _)]]);
      rewrite Hm, Hc; [lia | lia |].
    apply Z.leb_gt in Hle. unfold start_count in *.
    destruct (decide (key_eq (cmd_key c) (current_command_id s))); lia.
  - unfold on_entropy. destruct entropy; cbn; exact Hv.
Qed.

(** X: over any sequence of pre-checks and entropy events the Pulse
    Sentinel's veto count stays between 0 and maxVetoCount (0 when
    maxVetoCount is negative). *)
Theorem veto_count_bounded (cfg : config) (s : pulse) (es : list pulse_event)
  (Hs : veto_ok s) :
  veto_ok (run_pulse cfg s es).
Proof.
  unfold run_pulse. revert s Hs.
  induction es as [|e es IH]; intros s Hs; cbn [fold_left]; [exact Hs|].
  apply IH, pulse_step_veto_ok, Hs.
Qed.

Lemma veto_count_bounded_witness :
  veto_ok pulse0 /\
  veto_ok (run_pulse cfg0 pulse0
             [PreCheck click_btn 10; PreCheck click_btn 10; Entropy true 10;
              PreCheck click_btn 10; PreCheck click_btn 10]).
Proof.
  assert (H : veto_ok pulse0) by (unfold veto_ok; cbn; lia).
  split; [exact H|]. exact (veto_count_bounded cfg0 pulse0 _ H).
Defined.

(** X: the settlement window never drops below settlementWindow, never
    exceeds max(settlementWindow, 2 s), and does not shrink when the
    stability hint grows. *)
Theorem current_window_monotone (cfg : config) (c c' : command)
  (Hh : stabilityHint c <= stabilityHint c') :
  settlementWindow cfg <= current_window cfg c /\
  current_window cfg c <= current_window cfg c' /\
  current_window cfg c' <= pymax (settlementWindow cfg) 2.
Proof.
  assert (Hab : stabilityHint c / 1000 <= stabilityHint c' / 1000).
  { unfold Qdiv. apply Qmult_le_compat_r; [exact Hh | unfold Qle; cbn; lia]. }
  unfold current_window, pymax, pymin.
  generalize dependent (stabilityHint c / 1000).
  generalize dependent (stabilityHint c' / 1000). intros b a Hab.
  repeat match goal with
         | |- context [Qlt_le_dec ?x ?y] => destruct (Qlt_le_dec x y)
         | H : context [Qlt_le_dec ?x ?y] |- _ => destruct (Qlt_le_dec x y)
         end; lra.
Qed.

Lemma current_window_monotone_witness :
  let c := mkCommand "click" "" "#btn" "" 0 in
  let c' := mkCommand "click" "" "#btn" "" 500 in
  stabilityHint c <= stabilityHint c' /\
  settlementWindow cfg0 <= current_window cfg0 c /\
  current_window cfg0 c <= current_window cfg0 c' /\
  current_window cfg0 c' <= pymax (settlementWindow cfg0) 2.
Proof.
  intros c c'.
  assert (H : stabilityHint c <= stabilityHint c') by (unfold Qle; cbn; lia).
  split; [exact H|]. exact (current_window_monotone cfg0 c c' H).
Defined.

End PulseMore.

(* ------------------------------------------------------------------ *)
(** ** More facts about the stealth driver's main loop *)

Module DriverMore.
Import Driver.

(** The methods [dispatch_command] knows. *)
Definition known_methods : list string :=
  ["initialize"; "goto"; "click"; "execute_script"; "fill"; "type";
   "screenshot"; "evaluate"; "press"; "get_page_text"; "get_url";
   "get_cookies"; "set_cookies"; "get_storage"; "set_storage";
   "close"; "shutdown"; "force_kill"].

Definition request_method (request : list (string * pyval)) : pyval :=
  assoc_get request "method" (PStr "").
Definition request_id (request : list (string * pyval)) : pyval :=
  assoc_get request "id" PNone.

Lemma map_code_in (e : exc) (selector : pyval) :
  In (fst (map_exception_to_protocol e selector)) protocol_codes.
Proof.
  unfold map_exception_to_protocol, protocol_codes.
  destruct e as [c m]; simpl.
  destruct c; simpl;
    repeat match goal with
           | |- context [if ?b then _ else _] => destruct b
           end; simpl; tauto.
Qed.

Lemma screenshot_serializable (c : exc + (nat -> exc + string)) (v : pyval) :
  screenshot c = Ret v -> json_serializable v = true.
Proof.
  destruct c as [e | call]; cbn [screenshot].
  - intros H; injection H as <-; reflexivity.
  - destruct (_safe_driver_call call); intros H; try discriminate H;
      injection H as <-; reflexivity.
Qed.

Lemma dispatch_serializable (driver_call : string -> list pyval -> outcome pyval)
  (capture : exc + (nat -> exc + string))
  (Hdc : forall m args r, driver_call m args = Ret r -> json_serializable r = true)
  (method params r : pyval) :
  dispatch_command driver_call capture method params = Ret r -> json_serializable r = true.
Proof.
  unfold dispatch_command. intros H.
  repeat match type of H with
         | context [if ?b then _ else _] => destruct b
         | context [bindx ?c _] => destruct c; cbn [bindx] in H
         end;
    try discriminate H; try (eapply Hdc; exact H);
    try (eapply screenshot_serializable; exact H);
    injection H as <-; reflexivity.
Qed.

Lemma dispatch_no_hang (driver_call : string -> list pyval -> outcome pyval)
  (capture : exc + (nat -> exc + string))
  (Hnh : forall m args, driver_call m args <> Hang)
  (Hcap : screenshot capture <> Hang)
  (method params : pyval) :
  dispatch_command driver_call capture method params <> Hang.
Proof.
  unfold dispatch_command. intros H.
  repeat match type of H with
         | context [if ?b then _ else _] => destruct b
         | context [bindx ?c _] => destruct c; cbn [bindx] in H
         end;
    try discriminate H; try (eapply Hnh; exact H); exact (Hcap H).
Qed.

Lemma dispatch_dict_selector (params : pyval) (kvs : list (string * pyval)) :
  params = PDict kvs -> get params "selector" PNone = inr (assoc_get kvs "selector" PNone).
Proof. intros ->; reflexivity. Qed.

(** X: one iteration of the driver's main loop writes at most one line,
    and that line is a serializable JSON-RPC response carrying the
    request's own id: either a "result", or an "error" whose code is one
    of the five protocol codes. *)
Theorem main_step_response_shape (driver_call : string -> list pyval -> outcome pyval)
  (capture : exc + (nat -> exc + string))
  (request : list (string * pyval)) :
  (fst (main_step driver_call capture request) = [] \/
   exists resp, fst (main_step driver_call capture request) = [resp] /\
     json_serializable resp = true /\
     ((exists result, resp = make_success_response result (request_id request)) \/
      (exists code message, resp = make_error_response code message (request_id request)
                            /\ In code protocol_codes))).
Proof.
  unfold main_step, request_method, request_id. cbv zeta.
  set (m := assoc_get request "method" (PStr "")).
  set (rid := assoc_get request "id" PNone).
  set (p := assoc_get request "params" (PDict [])).
  destruct (str_method m "close" || str_method m "shutdown" || str_method m "force_kill").
  - destruct (json_serializable (make_success_response close_result rid)) eqn:Hs;
      [right; eexists; split; [reflexivity | split; [exact Hs | left; eexists; reflexivity]]
      | left; reflexivity].
  - destruct (dispatch_command driver_call capture m p) as [r | e |].
    + destruct (json_serializable (make_success_response r rid)) eqn:Hs;
        [right; eexists; split; [reflexivity | split; [exact Hs | left; eexists; reflexivity]]
        | left; reflexivity].
    + destruct (get p "selector" PNone) as [e' | sel]; [left; reflexivity|].
      destruct (map_exception_to_protocol e sel) as [code message] eqn:Hmap.
      destruct (json_serializable (make_error_response code message rid)) eqn:Hs;
        [right; eexists; split; [reflexivity | split; [exact Hs | right]] | left; reflexivity].
      exists code, message. split; [reflexivity|].
      pose proof (map_code_in e sel) as Hin. rewrite Hmap in Hin. exact Hin.
    + left; reflexivity.
Qed.



Definition ok_browser : string -> list pyval -> outcome pyval :=
  fun _ _ => Ret (PDict [("status", PStr "ok")]).

Definition ok_capture : exc + (nat -> exc + string) :=
  inr (fun _ => inr dummy_png).

Definition goto_request : list (string * pyval) :=
  [("jsonrpc", PStr "2.0"); ("method", PStr "goto");
   ("params", PDict [("url", PStr "https://example.com")]); ("id", PInt 1)].

(** A request whose method is not a string: [str(['stale'])] is the
    text ['stale'] with its quotes. *)
Definition list_method_request : list (string * pyval) :=
  [("jsonrpc", PStr "2.0"); ("method", PList [PStr "stale"]);
   ("params", PDict []); ("id", PInt 2)].



End DriverMore.

(* ------------------------------------------------------------------ *)
(** ** More facts about the PII Sentinel *)

Module PiiMore.
Import Pii PiiFacts.

(** The characters of a string other than '*'. *)
Fixpoint revealed (s : string) : nat :=
  match s with
  | EmptyString => 0
  | String a r =>
      ((if Ascii.eqb a (Ascii.ascii_of_nat 42) then 0 else 1) + revealed r)%nat
  end.

Lemma revealed_app (a b : string) :
  revealed (a ++ b) = (revealed a + revealed b)%nat.
Proof. induction a as [|c a IH]; simpl; [reflexivity | rewrite IH; lia]. Qed.

Lemma revealed_stars (n : nat) : revealed (stars n) = 0%nat.
Proof. induction n as [|n IH]; simpl; [reflexivity | exact IH]. Qed.

Lemma revealed_le_length (s : string) : (revealed s <= String.length s)%nat.
Proof.
  induction s as [|c s IH]; simpl; [lia|].
  destruct (Ascii.eqb c (Ascii.ascii_of_nat 42)); lia.
Qed.

(** X: the mask [_redact] records never shows more than 4 characters
    of the value: every other character is '*' (values of at most 4
    characters show none). *)
Theorem redact_reveals_at_most_four (v : string) :
  (revealed (_redact v) <= 4)%nat.
Proof.
  unfold _redact; cbv zeta.
  destruct (Nat.leb_spec (String.length v) 4); [vm_compute; lia|].
  rewrite !revealed_app, revealed_stars.
  pose proof (revealed_le_length (String.substring 0 2 v)).
  pose proof (revealed_le_length (String.substring (String.length v - 2) 2 v)).
  rewrite !substring_length in *. lia.
Qed.

(** Whether the scan of the pre-check text finds anything. *)
Definition any_finding (pats : patterns) (text : string) : bool :=
  match scan_for_pii pats text with [] => false | _ :: _ => true end.

(** X: the PII Sentinel votes exactly once on every pre-check: a hijack
    when the mode is "block", the text (page text and blocking-element
    texts) is not blank and a pattern matches it; a clear otherwise
    (in "alert" and "redact" mode, on blank text, or with no match). *)
Theorem pii_pre_check_vote (mode : string) (pats : patterns) (page_text : string)
  (blocking_texts : list string) :
  votes (on_pre_check mode pats page_text blocking_texts)
  = [if String.eqb mode "block" && nonblank (all_text page_text blocking_texts)
        && any_finding pats (all_text page_text blocking_texts)
     then VHijack else VClear].
Proof.
  unfold on_pre_check, any_finding. cbv zeta.
  destruct (nonblank (all_text page_text blocking_texts));
    [|rewrite andb_false_r; reflexivity].
  destruct (scan_for_pii pats (all_text page_text blocking_texts));
    [rewrite andb_false_r; reflexivity|].
  rewrite andb_true_r.
  destruct (String.eqb mode "block"); [reflexivity|].
  destruct (String.eqb mode "alert"); reflexivity.
Qed.

End PiiMore.

(* ------------------------------------------------------------------ *)
(** ** More facts about the persistent memory file *)

Module MemoryMore.
Import Py Memory MemoryFacts.

(** X: [_save_memory] touches no file other than the temporary file
    [mkstemp] created and the memory file: every other path has the
    same contents in every state it goes through and at the end,
    whichever way [shutil.move] goes. *)
Theorem save_memory_frame (json_dump : pyval -> list string * bool)
  (memory : pyval) (fs0 : fs) (memory_file : string) (tmp : option string)
  (mv : move_run) (unlink_ok : bool) (path : string)
  (Hmf : path <> memory_file) (Htmp : tmp <> Some path) :
  Forall (fun st : fs => st !! path = fs0 !! path)
    (fst (_save_memory json_dump memory fs0 memory_file tmp mv unlink_ok))
  /\ snd (_save_memory json_dump memory fs0 memory_file tmp mv unlink_ok) !! path
     = fs0 !! path.
Proof.
  unfold _save_memory. destruct tmp as [t|]; [|split; [constructor | reflexivity]].
  assert (t <> path) by congruence.
  destruct (json_dump memory) as [chunks dump_ok]. cbn [fst snd].
  destruct dump_ok; [destruct mv as [| | b [k|]]|]; cbn [fst snd]; split;
    try (apply List.Forall_app; split);
    try (apply List.Forall_forall; intros st Hst;
         apply in_map_iff in Hst as (n & <- & _); cbv beta;
         rewrite ?lookup_insert_ne by congruence; reflexivity);
    destruct unlink_ok; cbn;
    rewrite ?lookup_insert_ne, ?lookup_delete_ne, ?lookup_insert_ne
      by congruence; reflexivity.
Qed.

(** X: a save that succeeds is read back by the next load: when
    [mkstemp] gives a path other than the memory file, [json.dump]
    returns normally and the move completes (by the rename, or by a
    copy that does not raise), [_load_memory] on the resulting file
    system sets [self.memory] to whatever [json.load] makes of the text
    written; so with a [json.load] that inverts [json.dump] on this
    value, the memory comes back unchanged, whatever [self.memory] held
    before the load. *)
Theorem save_then_load (json_dump : pyval -> list string * bool)
  (json_loads : string -> option pyval) (memory before : pyval) (fs0 : fs)
  (memory_file temp_path : string) (mv : move_run) (unlink_ok : bool)
  (Htmp : temp_path <> memory_file)
  (Hmv : mv = Renamed \/ exists bufsize, mv = Copied bufsize None)
  (Hdump : snd (json_dump memory) = true)
  (Hload : json_loads (String.concat "" (fst (json_dump memory))) = Some memory) :
  _load_memory json_loads before
    (snd (_save_memory json_dump memory fs0 memory_file (Some temp_path) mv unlink_ok))
    memory_file true
  = memory.
Proof.
  unfold _save_memory, _load_memory.
  destruct (json_dump memory) as [chunks dump_ok]. cbn [fst snd] in *. subst dump_ok.
  destruct Hmv as [-> | [b ->]]; cbn [snd].
  - rewrite lookup_insert_eq, Hload. reflexivity.
  - destruct unlink_ok; cbn;
      rewrite ?lookup_delete_ne by congruence; rewrite lookup_insert_eq, Hload; reflexivity.
Qed.

Lemma save_memory_frame_witness :
  ("notes.txt" <> "JanitorSentinel_memory.json"
   /\ Some "tmpk3j9_x2.json" <> Some "notes.txt")
  /\ snd (_save_memory dump_empty (PDict [])
            (<["notes.txt" := "hello"]> fs_corrupt) "JanitorSentinel_memory.json"
            (Some "tmpk3j9_x2.json") (Copied 1024 (Some 0%nat)) true) !! "notes.txt"
     = Some "hello".
Proof.
  assert (H1 : "notes.txt" <> "JanitorSentinel_memory.json") by discriminate.
  assert (H2 : Some "tmpk3j9_x2.json" <> Some "notes.txt") by discriminate.
  split; [split; assumption|].
  destruct (save_memory_frame dump_empty (PDict [])
              (<["notes.txt" := "hello"]> fs_corrupt) "JanitorSentinel_memory.json"
              (Some "tmpk3j9_x2.json") (Copied 1024 (Some 0%nat)) true "notes.txt" H1 H2)
    as [_ Hfin].
  rewrite Hfin. vm_compute. reflexivity.
Defined.

Lemma save_then_load_witness :
  _load_memory loads_empty (PDict [("stale", PStr "x")])
    (snd (_save_memory dump_empty (PDict []) fs_corrupt "JanitorSentinel_memory.json"
            (Some "tmpk3j9_x2.json") (Copied 1024 None) true))
    "JanitorSentinel_memory.json" true
  = PDict [].
Proof.
  apply save_then_load;
    [discriminate | right; eexists; reflexivity | reflexivity | reflexivity].
Defined.

End MemoryMore.

(* ------------------------------------------------------------------ *)
(** ** Facts about the Janitor's pre-check *)

Module JanitorPreFacts.
Import Py Janitor JanitorPre.

Lemma first_obstacle_nonempty (target_rect : pyval) (blocking : list element)
  (o : string) :
  first_obstacle target_rect blocking = Some o ->
  match blocking with [] => true | _ => false end = false.
Proof. destruct blocking; [discriminate | reflexivity]. Qed.

Ltac pre_check_open Hg Ho :=
  unfold on_pre_check; rewrite Hg;
  rewrite (first_obstacle_nonempty _ _ _ Ho); cbn [orb is_hijacking state jan pw set_state];
  cbn [negb]; rewrite Ho.

(** One pre-check on a state that already cleared [o] [c] times. *)
Lemma pre_check_again (s : pre) (goal target_rect : pyval) (blocking : list element)
  (o : string) (c : Z)
  (Hg : Driver.str_method goal "site_recovery" = false)
  (Ho : first_obstacle target_rect blocking = Some o)
  (Hl : last_cleared s = Some o) (Hc : clear_count s = Some c) :
  let r := on_pre_check s goal target_rect blocking in
  last_cleared (fst r) = Some o /\
  ((2 < c)%Z /\ clear_count (fst r) = Some c /\ snd r = PGiveUp \/
   (c <= 2)%Z /\ clear_count (fst r) = Some (c + 1)%Z /\ snd r = PRemediate o).
Proof.
  cbv zeta. pre_check_open Hg Ho.
  cbn [last_cleared clear_count]. rewrite Hl, Hc. cbn [option_string_eqb].
  rewrite String.eqb_refl.
  destruct (Z.gtb_spec c 2); cbn.
  - split; [reflexivity|]. left; auto.
  - split; [reflexivity|]. right; auto.
Qed.

Lemma pre_check_new (s : pre) (goal target_rect : pyval) (blocking : list element)
  (o : string)
  (Hg : Driver.str_method goal "site_recovery" = false)
  (Ho : first_obstacle target_rect blocking = Some o)
  (Hl : last_cleared s <> Some o) :
  let r := on_pre_check s goal target_rect blocking in
  last_cleared (fst r) = Some o /\ clear_count (fst r) = Some 1%Z /\
  snd r = PRemediate o /\ fst r = fst (remediate
     (mkPre (mkWorld (set_state ANALYZING (jan (pw s))) (pending (pw s)))
            (Some o) (Some 1%Z) (pre_checks s + 1)) o).
Proof.
  cbv zeta. pre_check_open Hg Ho.
  cbn [last_cleared clear_count].
  replace (option_string_eqb (last_cleared s) (Some o)) with false.
  - cbn. auto.
  - destruct (last_cleared s) as [a|]; [|reflexivity]. cbn.
    symmetry. apply String.eqb_neq. congruence.
Qed.

Lemma pre_check_outcomes_counted (s : pre) (n : nat) (goal target_rect : pyval)
  (blocking : list element) (o : string) (c : Z)
  (Hg : Driver.str_method goal "site_recovery" = false)
  (Ho : first_obstacle target_rect blocking = Some o)
  (Hl : last_cleared s = Some o) (Hc : clear_count s = Some c) :
  pre_check_outcomes s n goal target_rect blocking
  = (firstn n (repeat (PRemediate o) (Z.to_nat (3 - c)))
    ++ repeat PGiveUp (n - Z.to_nat (3 - c)))%list.
Proof.
  revert s c Hl Hc. induction n as [|n IH]; intros s c Hl Hc; [reflexivity|].
  cbn [pre_check_outcomes].
  destruct (pre_check_again s goal target_rect blocking o c Hg Ho Hl Hc)
    as (Hl' & [(Hgt & Hc' & Hs) | (Hle & Hc' & Hs)]);
    destruct (on_pre_check s goal target_rect blocking) as [s' out];
    cbn [fst snd] in *; subst out.
  - replace (Z.to_nat (3 - c)) with 0%nat by lia.
    rewrite (IH s' c Hl' Hc'). replace (Z.to_nat (3 - c)) with 0%nat by lia.
    cbn [repeat]. rewrite !take_nil, !Nat.sub_0_r. reflexivity.
  - rewrite (IH s' (c + 1)%Z Hl' Hc').
    replace (Z.to_nat (3 - c)) with (S (Z.to_nat (3 - (c + 1)))) by lia.
    reflexivity.
Qed.

(** X: the Janitor's deduplication gives up after three attempts and
    never forgets: when every pre-check (not a site recovery) reports
    blocking elements whose first kept match is the obstacle [o], and
    [o] is not the last obstacle cleared, the first three pre-checks
    start a remediation of [o] and every later one sends a plain clear,
    for as long as the same obstacle is reported. *)
Theorem pre_check_gives_up_after_three (s : pre) (n : nat) (goal target_rect : pyval)
  (blocking : list element) (o : string)
  (Hg : Driver.str_method goal "site_recovery" = false)
  (Ho : first_obstacle target_rect blocking = Some o)
  (Hl : last_cleared s <> Some o) :
  pre_check_outcomes s n goal target_rect blocking
  = (firstn n [PRemediate o; PRemediate o; PRemediate o] ++ repeat PGiveUp (n - 3))%list.
Proof.
  destruct n as [|n]; [reflexivity|].
  cbn [pre_check_outcomes].
  destruct (pre_check_new s goal target_rect blocking o Hg Ho Hl) as (Hl' & Hc' & Hs & _).
  destruct (on_pre_check s goal target_rect blocking) as [s' out].
  cbn [fst snd] in *. subst out.
  rewrite (pre_check_outcomes_counted s' n goal target_rect blocking o 1 Hg Ho Hl' Hc').
  replace (S n - 3)%nat with (n - 2)%nat by lia. reflexivity.
Qed.

(** X: the "already hijacking" checks of [on_pre_check] and of
    [perform_remediation] never fire, since the pre-check first sets the
    state to ANALYZING: a pre-check (not a site recovery) that finds an
    obstacle it has not given up on starts one more remediation, even
    while earlier remediations are still in progress and the Sentinel
    is HIJACKING; the Sentinel ends up HIJACKING with that remediation
    added to the ones in progress. *)
Theorem pre_check_remediates_while_hijacking (s : pre) (goal target_rect : pyval)
  (blocking : list element) (o : string)
  (Hg : Driver.str_method goal "site_recovery" = false)
  (Ho : first_obstacle target_rect blocking = Some o)
  (Hnot_given_up : ~ (last_cleared s = Some o /\
                      exists c, clear_count s = Some c /\ (2 < c)%Z)) :
  let r := on_pre_check s goal target_rect blocking in
  snd r = PRemediate o /\
  state (jan (pw (fst r))) = HIJACKING /\
  pending (pw (fst r))
  = (pending (pw s) ++
      [(o, match memory (jan (pw s)) !! o with
           | Some b => if str_truthy b then Some b else None
           | None => None
           end)])%list.
Proof.
  cbv zeta.
  destruct (decide (last_cleared s = Some o)) as [Hl | Hl].
  - pre_check_open Hg Ho. cbn [last_cleared clear_count]. rewrite Hl.
    cbn [option_string_eqb]. rewrite String.eqb_refl.
    destruct (clear_count s) as [c|] eqn:Hc.
    + destruct (Z.gtb_spec c 2); [exfalso; eauto|]. cbn. auto.
    + cbn. auto.
  - destruct (pre_check_new s goal target_rect blocking o Hg Ho Hl) as (_ & _ & Hs & Hf).
    rewrite Hs, Hf. cbn. auto.
Qed.

(** X: a pre-check (not a site recovery) in which no reported element
    is a kept match, in particular one with no blocking elements, sends
    a clear and sets the state to IDLE whatever it was before, even
    HIJACKING during a remediation; the remediations in progress and the
    deduplication record are left as they were. *)
Theorem pre_check_clean_path (s : pre) (goal target_rect : pyval)
  (blocking : list element)
  (Hg : Driver.str_method goal "site_recovery" = false)
  (Ho : first_obstacle target_rect blocking = None) :
  let r := on_pre_check s goal target_rect blocking in
  snd r = PClear /\ state (jan (pw (fst r))) = IDLE /\
  pending (pw (fst r)) = pending (pw s) /\
  last_cleared (fst r) = last_cleared s /\ clear_count (fst r) = clear_count s /\
  pre_checks (fst r) = (pre_checks s + 1)%Z.
Proof.
  cbv zeta. unfold on_pre_check. rewrite Hg.
  destruct blocking as [|b rest]; cbn [orb is_hijacking state jan pw set_state negb].
  - cbn. auto 7.
  - rewrite Ho. cbn. auto 7.
Qed.

(** A OneTrust banner reported by the Hub, a plain content element, a
    fresh Sentinel, and one busy with a remediation of another obstacle. *)
Definition banner : element :=
  mkElement "onetrust-banner-sdk" "" (Some "#onetrust-banner-sdk") "DIV" None.
Definition content : element := mkElement "main" "container" None "DIV" None.
Definition pre_fresh : pre := mkPre (init ∅) None None 0.
Definition pre_busy : pre :=
  mkPre (mkWorld (mkJanitor HIJACKING ∅ None false 0) [("#old", None)])
        (Some "#old") (Some 1%Z) 3.

Lemma pre_check_gives_up_after_three_witness :
  pre_check_outcomes pre_fresh 5 PNone PNone [banner]
  = [PRemediate "#onetrust-banner-sdk"; PRemediate "#onetrust-banner-sdk";
     PRemediate "#onetrust-banner-sdk"; PGiveUp; PGiveUp].
Proof.
  rewrite (pre_check_gives_up_after_three pre_fresh 5 PNone PNone [banner]
             "#onetrust-banner-sdk" eq_refl eq_refl ltac:(cbn; discriminate)).
  reflexivity.
Defined.

Lemma pre_check_remediates_while_hijacking_witness :
  state (jan (pw (fst (on_pre_check pre_busy PNone PNone [banner])))) = HIJACKING /\
  pending (pw (fst (on_pre_check pre_busy PNone PNone [banner])))
  = [("#old", None); ("#onetrust-banner-sdk", None)].
Proof.
  pose proof (pre_check_remediates_while_hijacking pre_busy PNone PNone [banner]
                "#onetrust-banner-sdk" eq_refl eq_refl
                ltac:(cbn; intros [H _]; discriminate H)) as H.
  cbv zeta in H. destruct H as (_ & Hs & Hp).
  split; [exact Hs | rewrite Hp; vm_compute; reflexivity].
Defined.

Lemma pre_check_clean_path_witness :
  snd (on_pre_check pre_busy PNone PNone [content]) = PClear /\
  state (jan (pw (fst (on_pre_check pre_busy PNone PNone [content])))) = IDLE.
Proof.
  pose proof (pre_check_clean_path pre_busy PNone PNone [content] eq_refl eq_refl) as H.
  cbv zeta in H. destruct H as (Hs & Hst & _).
  split; [exact Hs | exact Hst].
Defined.

End JanitorPreFacts.

(* ------------------------------------------------------------------ *)
(** ** Facts about the Janitor's site recovery *)

Module JanitorSiteFacts.
Import Py Janitor JanitorSite.

(** All the selectors the recovery may click, in order. *)
Definition all_clicks (targets : list string) : list string :=
  map full_sel (flat_map strategies targets).

Definition semantic_targets (invariants : list string) : list string :=
  flat_map (fun inv => locale_get locale_map (lower inv)) invariants.

Lemma inner_loop_take (flag : nat -> bool) (sels : list string) (n j : nat)
  (Hj : (j <= length sels)%nat)
  (Hbefore : forall i, (n <= i < n + j)%nat -> flag i = false)
  (Hstop : j = length sels \/ flag (n + j)%nat = true) :
  inner_loop flag sels n = (take j (map full_sel sels), (n + j)%nat).
Proof.
  revert n j Hj Hbefore Hstop. induction sels as [|s r IH]; intros n j Hj Hbefore Hstop.
  - cbn in Hj. assert (j = 0%nat) by lia. subst j. cbn. f_equal. lia.
  - destruct j as [|j].
    + destruct Hstop as [Hstop | Hstop]; [cbn in Hstop; discriminate|].
      rewrite Nat.add_0_r in Hstop. cbn. rewrite Hstop. f_equal. lia.
    + cbn. rewrite (Hbefore n) by lia.
      rewrite (IH (S n) j) by (cbn in *; first [lia | intros; apply Hbefore; lia
        | destruct Hstop as [Hstop | Hstop]; [left; lia | right; rewrite <- Hstop; f_equal; lia]]).
      f_equal. lia.
Qed.

Lemma outer_loop_take (flag : nat -> bool) (targets : list string) (n k : nat)
  (Hbefore : forall i, (n <= i < n + k)%nat -> flag i = false)
  (Hstop : (length (all_clicks targets) <= k)%nat \/ flag (n + k)%nat = true) :
  outer_loop flag targets n = take k (all_clicks targets).
Proof.
  revert n k Hbefore Hstop. induction targets as [|t r IH]; intros n k Hbefore Hstop.
  - cbn. rewrite take_nil. reflexivity.
  - unfold all_clicks in *. cbn [flat_map] in *. rewrite map_app in *.
    rewrite length_app in Hstop.
    assert (Hlen : length (map full_sel (strategies t)) = 4%nat) by reflexivity.
    cbn [outer_loop].
    destruct (Nat.lt_ge_cases k 4) as [Hk | Hk].
    + rewrite (inner_loop_take flag (strategies t) n k) by
        (cbn; first [lia | intros; apply Hbefore; lia
         | destruct Hstop as [Hstop | Hstop]; [lia | right; exact Hstop]]).
      destruct Hstop as [Hstop | Hstop]; [lia|]. rewrite Hstop.
      rewrite take_app_le by lia. reflexivity.
    + rewrite (inner_loop_take flag (strategies t) n 4) by
        (cbn; first [lia | intros; apply Hbefore; lia | left; reflexivity]).
      rewrite take_app. rewrite !take_ge by (rewrite Hlen; lia). rewrite Hlen.
      destruct (flag (n + 4)%nat) eqn:Hf.
      * assert (k = 4%nat) as ->.
        { destruct (Nat.eq_dec k 4); [assumption|].
          rewrite (Hbefore (n + 4)%nat) in Hf by lia. discriminate. }
        replace (4 - 4)%nat with 0%nat by lia. rewrite take_0, app_nil_r.
        reflexivity.
      * rewrite (IH (n + 4)%nat (k - 4)%nat).
        -- reflexivity.
        -- intros i Hi. apply Hbefore. lia.
        -- destruct Hstop as [Hstop | Hstop]; [left; lia | right].
           replace (n + 4 + (k - 4))%nat with (n + k)%nat by lia. exact Hstop.
Qed.

(** X: a site recovery with locale invariants hijacks, clicks the four
    strategies (button, link, role=button, any element with the text)
    of each semantic target of the invariants, in order, and stops
    clicking as soon as it sees [recovery_successful] set: with [k]
    clicks sent before the flag is first seen set (or all of them when
    it never is), the messages are the hijack, the first [k] clicks and
    a resume, and the Sentinel is left IDLE. An invariant with no entry
    in the locale map adds no target, so with none the recovery hijacks
    and resumes without clicking. *)
Theorem site_recovery_clicks (flag : nat -> bool) (invariants : list string) (k : nat)
  (Hinv : invariants <> [])
  (Hbefore : forall i, (i < k)%nat -> flag i = false)
  (Hstop : (length (all_clicks (semantic_targets invariants)) <= k)%nat \/ flag k = true) :
  handle_site_recovery flag invariants
  = ((SRHijack invariants
      :: map SRClick (take k (all_clicks (semantic_targets invariants)))
      ++ [SRResume])%list, Some IDLE).
Proof.
  unfold handle_site_recovery.
  destruct invariants as [|inv invs]; [congruence|].
  fold (semantic_targets (inv :: invs)).
  rewrite <- (outer_loop_take flag (semantic_targets (inv :: invs)) 0 k)
    by (first [intros; apply Hbefore; lia | exact Hstop]).
  destruct (semantic_targets (inv :: invs)); reflexivity.
Qed.

Lemma site_recovery_clicks_witness :
  handle_site_recovery (fun i => Nat.eqb i 2) ["EN_GB"]
  = ([SRHijack ["EN_GB"];
      SRClick "button:has-text('United Kingdom') >> visible=true";
      SRClick "a:has-text('United Kingdom') >> visible=true"; SRResume], Some IDLE).
Proof.
  rewrite (site_recovery_clicks (fun i => Nat.eqb i 2) ["EN_GB"] 2).
  - reflexivity.
  - discriminate.
  - intros i Hi. apply Nat.eqb_neq. lia.
  - right. reflexivity.
Defined.

End JanitorSiteFacts.

(* ------------------------------------------------------------------ *)
(** ** Facts about the configuration *)

Module ConfigFacts.
Import Py Driver Config.

(** X: [_load_config] returns whatever JSON value config.json holds,
    without checking that it is an object; when it is not (a list, a
    string, a number, null), the Janitor's constructor raises
    [AttributeError] on [self.config.get]. Without a readable config
    file the defaults apply and the Janitor waits 0.3 s between
    exploration clicks and 1 s after a remediation. *)
Theorem config_not_object_breaks_janitor (json_loads : string -> option pyval)
  (content : string) (v : pyval)
  (Hv : json_loads content = Some v) (Hnd : forall kvs, v <> PDict kvs) :
  _load_config json_loads (Some content) true = v /\
  (exists msg, janitor_delays (_load_config json_loads (Some content) true)
               = inl (mkExc AttributeError msg)) /\
  (forall config_file open_ok,
     (config_file = None \/ open_ok = false) ->
     janitor_delays (_load_config json_loads config_file open_ok)
     = inr (300 # 1000, 1000 # 1000)%Q).
Proof.
  split; [|split].
  - cbn. rewrite Hv. reflexivity.
  - cbn. rewrite Hv. unfold janitor_delays, get.
    destruct v; try (eexists; reflexivity). exfalso. eapply Hnd. reflexivity.
  - intros config_file open_ok Hc.
    assert (Hd : _load_config json_loads config_file open_ok = default_config).
    { destruct Hc as [-> | ->]; [reflexivity|]. destruct config_file; reflexivity. }
    rewrite Hd. vm_compute. reflexivity.
Qed.

Lemma config_not_object_breaks_janitor_witness :
  exists msg, janitor_delays
    (_load_config (fun s => if String.eqb s "[1, 2]" then Some (PList [PInt 1; PInt 2])
                            else None) (Some "[1, 2]") true)
    = inl (mkExc AttributeError msg).
Proof.
  destruct (config_not_object_breaks_janitor
              (fun s => if String.eqb s "[1, 2]" then Some (PList [PInt 1; PInt 2])
                        else None)
              "[1, 2]" (PList [PInt 1; PInt 2]) eq_refl
              ltac:(intros kvs H; discriminate H)) as (_ & H & _).
  exact H.
Defined.

End ConfigFacts.
